(** * vLoD: detectability scoring of VCF variants and the VCF merge pass

    A shallow embedding of [LOD_edit.py] (the scoring pass) and
    [merge_vcf_lod.py] (the merge pass), with the properties of the
    design document stated and settled against it.

    Conventions of the embedding:
    - a Python [int] is a [Z]; a Python [str] is a [string], its
      characters read as code points below 256;
    - an exception is a value of [exn], and code that can raise returns
      a [result];
    - a Python [dict] is an association list in insertion order with
      unique keys ([dict_get], [dict_set]);
    - the arithmetic of the scoring formula (lines 78-80) has two
      embeddings. [lod_of] reads it over the real numbers ([R]):
      arithmetic is exact, and [float("-inf")] is a constructor of its
      own ([NegInf]); the pipeline is built on it, and it carries the
      properties that do not depend on rounding. [lod_value_binary64]
      and [lod_binary64] run the same lines on the kernel's binary64
      floats, operation by operation as the interpreter does, with
      [math.log10] (the C library's) as a parameter; what depends on
      rounding is settled there. *)

From Stdlib Require Import PrimFloat.
From Stdlib Require Uint63.
From Stdlib Require Import String Ascii ZArith Lia Bool Reals Lra List.
Import ListNotations.

Local Open Scope string_scope.
Local Open Scope list_scope.
Local Open Scope Z_scope.

(** Decimal float literals are read as Python reads them: the nearest
    binary64 number. *)
#[local] Set Warnings "-inexact-float".

(** ** Python runtime: exceptions *)

Inductive exn : Type :=
| IndexError
| ValueError
| TypeError
| UnboundLocalError
| KeyError
| ZeroDivisionError.

Inductive result (A : Type) : Type :=
| Ok (a : A)
| Raise (e : exn).

Arguments Ok {A} a.
Arguments Raise {A} e.

Definition bind {A B : Type} (m : result A) (k : A -> result B) : result B :=
  match m with
  | Ok a => k a
  | Raise e => Raise e
  end.

Notation "x <- m ;; k" := (bind m (fun x => k))
  (at level 61, m at next level, right associativity).

Notation "' pat <- m ;; k" := (bind m (fun x => match x with pat => k end))
  (at level 61, pat pattern, m at next level, right associativity).

(** A [for] loop whose body can raise: the state is threaded from left to
    right and the first exception ends the loop. *)
Fixpoint for_each {A S : Type} (body : S -> A -> result S) (xs : list A) (s : S)
  : result S :=
  match xs with
  | [] => Ok s
  | x :: xs' => s' <- body s x ;; for_each body xs' s'
  end.

(** [[f(x) for x in xs]] where [f] can raise. *)
Fixpoint map_result {A B : Type} (f : A -> result B) (xs : list A) : result (list B) :=
  match xs with
  | [] => Ok []
  | x :: xs' => y <- f x ;; ys <- map_result f xs' ;; Ok (y :: ys)
  end.

(** ** Python runtime: sequences *)

Definition py_len {A : Type} (l : list A) : Z := Z.of_nat (length l).

(** A slice bound as CPython adjusts it (step 1): a negative bound counts
    from the end, and both are clipped to [0 .. len]. *)
Definition adjust_index (len i : Z) : Z :=
  if i <? 0 then Z.max (i + len) 0 else Z.min i len.

(** [l[start:stop]]. *)
Definition py_slice {A : Type} (l : list A) (start stop : Z) : list A :=
  let a := adjust_index (py_len l) start in
  let b := adjust_index (py_len l) stop in
  firstn (Z.to_nat (b - a)) (skipn (Z.to_nat a) l).

(** [l[i]]: a negative index counts from the end; out of range raises. *)
Definition py_index {A : Type} (l : list A) (i : Z) : result A :=
  let j := if i <? 0 then i + py_len l else i in
  if (j <? 0) || (py_len l <=? j) then Raise IndexError
  else match nth_error l (Z.to_nat j) with
       | Some x => Ok x
       | None => Raise IndexError
       end.

(** [range(start, stop, step)] for a positive step, the only one the
    program uses ([chunk_size] is at least 1): CPython's length formula
    [(stop - start - 1) // step + 1]. *)
Definition py_range (start stop step : Z) : list Z :=
  if (0 <? step) && (start <? stop)
  then map (fun k => start + Z.of_nat k * step)
           (seq 0 (Z.to_nat ((stop - start - 1) / step + 1)))
  else [].

(** ** Python runtime: text *)

Definition nl : string := String "010"%char EmptyString.
Definition tab : ascii := "009"%char.
Definition dquote : string := String "034"%char EmptyString.

(** [str.isspace] on one character (code points below 256). *)
Definition py_isspace (c : ascii) : bool :=
  let n := nat_of_ascii c in
  ((9 <=? n) && (n <=? 13) || (28 <=? n) && (n <=? 32)
   || (n =? 133) || (n =? 160))%nat.

Fixpoint dropwhile {A : Type} (p : A -> bool) (l : list A) : list A :=
  match l with
  | [] => []
  | x :: l' => if p x then dropwhile p l' else l
  end.

(** [s.strip()]. *)
Definition strip (s : string) : string :=
  string_of_list_ascii
    (rev (dropwhile py_isspace (rev (dropwhile py_isspace (list_ascii_of_string s))))).

(** [s.startswith(p)]. *)
Definition startswith (s p : string) : bool := String.prefix p s.

(** The pieces of [s] between the characters that satisfy [sep]; always
    at least one piece. *)
Fixpoint split_where (sep : ascii -> bool) (s : string) : list string :=
  match s with
  | EmptyString => [EmptyString]
  | String c s' =>
      if sep c then EmptyString :: split_where sep s'
      else match split_where sep s' with
           | w :: ws => String c w :: ws
           | [] => [String c EmptyString]
           end
  end.

(** [s.split(sep)] for a one-character separator. *)
Definition split_on (sep : ascii) (s : string) : list string :=
  split_where (Ascii.eqb sep) s.

Definition nonempty (s : string) : bool :=
  match s with EmptyString => false | String _ _ => true end.

(** [s.split()]: the maximal runs of characters that are not whitespace. *)
Definition split_ws (s : string) : list string :=
  filter nonempty (split_where py_isspace s).

(** [sep.join(l)]. *)
Definition join (sep : string) (l : list string) : string := String.concat sep l.

(** [len(s)]. *)
Definition str_len (s : string) : Z := Z.of_nat (String.length s).

(** [l.index(x)]: the first position of [x], or [ValueError]. *)
Fixpoint list_index (l : list string) (x : string) : result Z :=
  match l with
  | [] => Raise ValueError
  | y :: l' => if String.eqb y x then Ok 0 else i <- list_index l' x ;; Ok (i + 1)
  end.

(** [l[i] = v]: out of range raises. *)
Definition py_setitem {A : Type} (l : list A) (i : Z) (v : A) : result (list A) :=
  let j := if i <? 0 then i + py_len l else i in
  if (j <? 0) || (py_len l <=? j) then Raise IndexError
  else Ok (firstn (Z.to_nat j) l ++ v :: skipn (Z.to_nat (j + 1)) l).

(** The whitespace [int(str)] skips at both ends (code points below 256). *)
Definition int_space (c : ascii) : bool :=
  let n := nat_of_ascii c in
  ((9 <=? n) && (n <=? 13) || (n =? 32) || (n =? 133) || (n =? 160))%nat.

Definition is_digit (c : ascii) : bool :=
  let n := nat_of_ascii c in ((48 <=? n) && (n <=? 57))%nat.

Definition digit_value (c : ascii) : Z := Z.of_nat (nat_of_ascii c) - 48.

(** Decimal digits, single underscores allowed between two digits. *)
Fixpoint digits_value (acc : Z) (after_digit : bool) (cs : list ascii) : option Z :=
  match cs with
  | [] => if after_digit then Some acc else None
  | c :: cs' =>
      if is_digit c then digits_value (10 * acc + digit_value c) true cs'
      else if Ascii.eqb c "_"%char
           then if after_digit then digits_value acc false cs' else None
           else None
  end.

(** [int(s)] in base 10: optional whitespace, an optional sign, digits.
    (The cap that recent interpreters put on the number of digits is left
    out.) *)
Definition py_int (s : string) : result Z :=
  let cs :=
    rev (dropwhile int_space (rev (dropwhile int_space (list_ascii_of_string s)))) in
  let parsed :=
    match cs with
    | "-"%char :: cs' => option_map Z.opp (digits_value 0 false cs')
    | "+"%char :: cs' => digits_value 0 false cs'
    | _ => digits_value 0 false cs
    end in
  match parsed with
  | Some n => Ok n
  | None => Raise ValueError
  end.

(** ** Python runtime: dictionaries *)

Section Dict.
Context {K V : Type} (key_eqb : K -> K -> bool).

(** [d.get(k)] / [k in d]. *)
Fixpoint dict_get (d : list (K * V)) (k : K) : option V :=
  match d with
  | [] => None
  | (k', v) :: d' => if key_eqb k k' then Some v else dict_get d' k
  end.

(** [d[k] = v]: a known key keeps its place, a new one goes last. *)
Fixpoint dict_set (d : list (K * V)) (k : K) (v : V) : list (K * V) :=
  match d with
  | [] => [(k, v)]
  | (k', v') :: d' =>
      if key_eqb k k' then (k', v) :: d' else (k', v') :: dict_set d' k v
  end.

End Dict.

(** ** [LOD_edit.py]: [chunkify] *)

Definition chunkify {A : Type} (lst : list A) (num_chunks : Z) : list (list A) :=
  let num_chunks := Z.min num_chunks (py_len lst) in
  if num_chunks <=? 0 then [lst]
  else
    let chunk_size := Z.max 1 (py_len lst / num_chunks) in
    map (fun i => py_slice lst i (i + chunk_size))
        (py_range 0 (py_len lst) chunk_size).

(** ** [LOD_edit.py]: evidence and counting *)

(** What the alignment library tells about one read of a pileup column:
    [query_position] is [None] when [is_del] or [is_refskip] is set, and
    [query_sequence] is [None] for a read stored without its bases. *)
Record pileup_read : Type := {
  is_refskip : bool;
  is_del : bool;
  query_position : option Z;
  query_sequence : option string;
  indel : Z
}.

(** The read-evidence source: [pileup(chrom, start, stop)] with
    [truncate=True] gives the pileup columns of the region, each with its
    reads. The source answers every region: what it raises of its own (an
    unknown contig, a start below 0) is not modelled. *)
Definition alignment_file : Type := string -> Z -> Z -> list (list pileup_read).

(** [ref_count] and [allele_counts]. *)
Definition counts : Type := (Z * list (string * Z))%type.

(** [{allele: 0 for allele in alt_alleles}]. *)
Definition init_allele_counts (alt_alleles : list string) : list (string * Z) :=
  fold_left (fun d allele => dict_set String.eqb d allele 0) alt_alleles [].

(** [allele_counts[k] += 1]. *)
Definition dict_incr (d : list (string * Z)) (k : string) : result (list (string * Z)) :=
  match dict_get String.eqb d k with
  | Some n => Ok (dict_set String.eqb d k (n + 1))
  | None => Raise KeyError
  end.

(** [max(l)] of a list of integers; the empty list raises. *)
Definition py_max (l : list Z) : result Z :=
  match l with
  | [] => Raise ValueError
  | x :: l' => Ok (fold_left Z.max l' x)
  end.

(** [sum(l)]. *)
Definition py_sum (l : list Z) : Z := fold_left Z.add l 0.

(** [s[i]] on text: a one-character string. *)
Definition str_index (s : string) (i : Z) : result string :=
  c <- py_index (list_ascii_of_string s) i ;; Ok (String c EmptyString).

(** [s[start:stop]] on text. *)
Definition str_slice (s : string) (start stop : Z) : string :=
  string_of_list_ascii (py_slice (list_ascii_of_string s) start stop).

(** Subscripting [None], or with [None], raises. *)
Definition not_none {A : Type} (o : option A) : result A :=
  match o with
  | Some a => Ok a
  | None => Raise TypeError
  end.

(** Lines 51-53 and 63-65: the read shows [seen]. *)
Definition count_sequence (ref : string) (st : counts) (seen : string) : result counts :=
  let '(ref_count, allele_counts) := st in
  if String.eqb seen ref then Ok (ref_count + 1, allele_counts)
  else match dict_get String.eqb allele_counts seen with
       | Some _ => d <- dict_incr allele_counts seen ;; Ok (ref_count, d)
       | None => Ok st
       end.

(** Lines 69-73: the body of the loop over the alternates of an indel. *)
Definition count_indel (ref : string) (indel : Z) (st : counts) (alt_allele : string)
  : result counts :=
  let '(ref_count, allele_counts) := st in
  if indel =? str_len alt_allele - str_len ref
  then d <- dict_incr allele_counts alt_allele ;; Ok (ref_count, d)
  else if indel =? 0 then Ok (ref_count + 1, allele_counts)
  else Ok st.

(** Lines 38-73: one read of the pileup. *)
Definition count_read (ref : string) (alt_alleles : list string) (st : counts)
    (pileup_read : pileup_read) : result counts :=
  if negb (is_refskip pileup_read) then
    let ref_len := str_len ref in
    alt_len <- py_max (map str_len alt_alleles) ;;
    if ref_len =? alt_len then
      if ref_len =? 1 then
        if negb (is_del pileup_read) then
          seq <- not_none (query_sequence pileup_read) ;;
          i <- not_none (query_position pileup_read) ;;
          base <- str_index seq i ;;
          count_sequence ref st base
        else Ok st
      else
        if negb (is_del pileup_read) then
          start <- not_none (query_position pileup_read) ;;
          let end_ := start + ref_len in
          seq <- not_none (query_sequence pileup_read) ;;
          count_sequence ref st (str_slice seq start end_)
        else Ok st
    else
      for_each (count_indel ref (indel pileup_read)) alt_alleles st
  else Ok st.

(** Lines 32-73: the counters of one variant over its pileup. *)
Definition count_reads (ref : string) (alt_alleles : list string)
    (pileup : list (list pileup_read)) : result counts :=
  for_each (fun st pileup_column => for_each (count_read ref alt_alleles) pileup_column st)
    pileup (0, init_allele_counts alt_alleles).

(** ** [LOD_edit.py]: the score *)

Local Open Scope R_scope.

(** [lod]: a finite number or [float("-inf")]. *)
Inductive lod_t : Type :=
| NegInf
| Finite (x : R).

(** [x / y] in exact arithmetic: a zero divisor raises. *)
Definition py_div (x y : R) : result R :=
  if Req_dec_T y 0 then Raise ZeroDivisionError else Ok (x / y).

(** [math.log10], as the real function it approximates. *)
Definition log10 (x : R) : R := ln x / ln 10.

(** Lines 78-80, read over the real numbers. *)
Definition lod_of (p_se p_fp p_tp : R) (total_count alt_count : Z) : result lod_t :=
  vaf <- (if (0 <? total_count)%Z
          then py_div (IZR alt_count) (IZR total_count)
          else Ok 0) ;;
  lod_value <- py_div (p_tp * vaf) ((1 - vaf) * p_se + vaf * p_fp) ;;
  Ok (if Rlt_dec 0 lod_value then Finite (log10 lod_value) else NegInf).

Local Close Scope R_scope.

(** *** Lines 78-80 on binary64 floats

    A Python [float] is an IEEE 754 binary64 number, and its arithmetic
    rounds to nearest, ties to even: the kernel's [float] with its
    operations. The three probabilities are floats ([type=float], lines
    116-124). *)





(** A tuple of [results]. *)
Record result_row : Type := {
  chrom : string;
  pos : Z;
  ref : string;
  alt : string;
  lod : lod_t;
  coverage : Z;
  num_variant_reads : Z
}.

(** Lines 76-86: the rows of one variant, one for each key of
    [allele_counts]. *)
Definition score_variant (p_se p_fp p_tp : R) (chrom : string) (pos : Z)
    (ref : string) (st : counts) : result (list result_row) :=
  let '(ref_count, allele_counts) := st in
  let total_count := ref_count + py_sum (map snd allele_counts) in
  map_result
    (fun '(alt, alt_count) =>
       lod <- lod_of p_se p_fp p_tp total_count alt_count ;;
       Ok {| chrom := chrom; pos := pos; ref := ref; alt := alt; lod := lod;
             coverage := total_count; num_variant_reads := alt_count |})
    allele_counts.

(** Lines 18-73: the variant of a line and its counters. *)
Definition variant_evidence (bam_file : alignment_file) (line : string)
  : result (string * Z * string * counts) :=
  let fields := split_on tab (strip line) in
  chrom <- py_index fields 0 ;;
  f1 <- py_index fields 1 ;;
  pos <- py_int f1 ;;
  ref <- py_index fields 3 ;;
  alt <- py_index fields 4 ;;
  let pileup := bam_file chrom (pos - 1) pos in
  let alt_alleles := split_on ","%char alt in
  st <- count_reads ref alt_alleles pileup ;;
  Ok (chrom, pos, ref, st).

(** Lines 18-86: one line of the chunk. *)
Definition process_vcf_line (bam_file : alignment_file) (p_se p_fp p_tp : R)
    (line : string) : result (list result_row) :=
  '(chrom, pos, ref, st) <- variant_evidence bam_file line ;;
  score_variant p_se p_fp p_tp chrom pos ref st.

(** [process_vcf_chunk]. *)
Definition process_vcf_chunk (bam_file : alignment_file) (p_se p_fp p_tp : R)
    (chunk : list string) : result (list result_row) :=
  for_each
    (fun results line =>
       rows <- process_vcf_line bam_file p_se p_fp p_tp line ;;
       Ok (results ++ rows))
    chunk [].

(** ** [LOD_edit.py]: the main program *)

(** Lines 150-157: a line is kept when it is not a header and its second
    field reads as an integer; only [ValueError] is caught. *)
Definition keep_vcf_line (line : string) : result bool :=
  if negb (startswith line "#") then
    let fields := split_on tab (strip line) in
    f1 <- py_index fields 1 ;;
    match py_int f1 with
    | Ok _ => Ok true
    | Raise ValueError => Ok false
    | Raise e => Raise e
    end
  else Ok false.

Definition read_vcf_lines (vcf_file : list string) : result (list string) :=
  for_each
    (fun vcf_lines line =>
       keep <- keep_vcf_line line ;;
       Ok (if keep then vcf_lines ++ [line] else vcf_lines))
    vcf_file [].

(** [detectability_score]: the integer [0] or the value of [lod]. *)
Inductive score_t : Type :=
| IntScore (n : Z)
| FloatScore (l : lod_t).

(** [lod == float("-inf")]. *)
Definition is_neg_inf (l : lod_t) : bool :=
  match l with
  | NegInf => true
  | Finite _ => false
  end.

(** [score >= c], [score > c] and [score < c] against a float literal. *)
Definition score_ge (s : score_t) (c : R) : bool :=
  match s with
  | IntScore n => if Rle_dec c (IZR n) then true else false
  | FloatScore NegInf => false
  | FloatScore (Finite x) => if Rle_dec c x then true else false
  end.

Definition score_gt (s : score_t) (c : R) : bool :=
  match s with
  | IntScore n => if Rlt_dec c (IZR n) then true else false
  | FloatScore NegInf => false
  | FloatScore (Finite x) => if Rlt_dec c x then true else false
  end.

Definition score_lt (s : score_t) (c : R) : bool :=
  match s with
  | IntScore n => if Rlt_dec (IZR n) c then true else false
  | FloatScore NegInf => true
  | FloatScore (Finite x) => if Rlt_dec x c then true else false
  end.

(** [a / b] on integers (true division): a zero divisor raises. *)
Definition int_div (a b : Z) : result R :=
  if b =? 0 then Raise ZeroDivisionError else Ok (IZR a / IZR b)%R.

(** A tuple of [detectability_results]. *)
Record detectability_row : Type := {
  d_chrom : string;
  d_pos : Z;
  d_ref : string;
  d_alt : string;
  d_score : score_t;
  d_condition : string
}.

(** Lines 195-213: the body of the loop, for one tuple of [results]. *)
Definition classify (max_coverage max_num_variant_reads : Z) (r : result_row)
  : result detectability_row :=
  detectability_score <-
    (if is_neg_inf (lod r) || (coverage r <=? 1)
     then Ok (IntScore 0)
     else
       normalized_coverage <- int_div (coverage r) max_coverage ;;
       normalized_num_variant_reads <-
         int_div (num_variant_reads r) max_num_variant_reads ;;
       Ok (FloatScore (lod r))) ;;
  let detectability_condition :=
    if score_ge detectability_score 2.50 then "Detectable"
    else if score_gt detectability_score 0.00 && score_lt detectability_score 2.50
         then "Non-detectable"
         else "Non-detectable" in
  Ok {| d_chrom := chrom r; d_pos := pos r; d_ref := ref r; d_alt := alt r;
        d_score := detectability_score; d_condition := detectability_condition |}.

(** A row of [output_data]. *)
Record output_row : Type := {
  out_chrom : string;
  out_pos : Z;
  out_ref : string;
  out_alt : string;
  detectability_score : score_t;
  detectability_condition : string;
  out_coverage : Z;
  out_variant_reads : Z
}.

(** Lines 226-231. *)
Definition same_variant (d : detectability_row) (result : result_row) : bool :=
  String.eqb (chrom result) (d_chrom d) && (pos result =? d_pos d)
  && String.eqb (ref result) (d_ref d) && String.eqb (alt result) (d_alt d).

(** Lines 215-246. [coverage] and [num_variant_reads] are variables of the
    program: they keep their last value when the search finds nothing. *)
Definition output_data (results : list result_row)
    (detectability_results : list detectability_row) (vars : Z * Z)
  : list output_row :=
  snd
    (fold_left
       (fun '(vars, out) d =>
          let vars' :=
            match find (same_variant d) results with
            | Some result => (coverage result, num_variant_reads result)
            | None => vars
            end in
          (vars',
           out ++ [{| out_chrom := d_chrom d; out_pos := d_pos d;
                      out_ref := d_ref d; out_alt := d_alt d;
                      detectability_score := d_score d;
                      detectability_condition := d_condition d;
                      out_coverage := fst vars';
                      out_variant_reads := snd vars' |}]))
       detectability_results (vars, [])).

(** Lines 188-246: from [results] (not empty) to [output_data]. *)
Definition report (results : list result_row) : result (list output_row) :=
  max_coverage <- py_max (map coverage results) ;;
  max_num_variant_reads <- py_max (map num_variant_reads results) ;;
  detectability_results <-
    map_result (classify max_coverage max_num_variant_reads) results ;;
  let vars :=
    match last (map Some results) None with
    | Some r => (coverage r, num_variant_reads r)
    | None => (0, 0)
    end in
  Ok (output_data results detectability_results vars).

(** Lines 144-253: the lines of the VCF to the rows written after the
    header line. The worker pool refuses a size that is not positive, and
    gives the results of the chunks in the order of the chunks. *)
Definition scoring_pass (bam_file : alignment_file) (p_tp p_fp p_se : R)
    (num_processes : Z) (vcf_file : list string) : result (list output_row) :=
  vcf_lines <- read_vcf_lines vcf_file ;;
  let num_processes :=
    if 0 <? py_len vcf_lines then Z.min num_processes (py_len vcf_lines) else 1 in
  let num_chunks := num_processes in
  let chunks := chunkify vcf_lines num_chunks in
  results <-
    match vcf_lines with
    | [] => Ok []
    | _ :: _ =>
        if num_processes <=? 0 then Raise ValueError
        else map_result (process_vcf_chunk bam_file p_se p_fp p_tp) chunks
    end ;;
  let results := concat results in
  match results with
  | [] => Ok []
  | _ :: _ => report results
  end.

(** ** [merge_vcf_lod.py]: [merge_detectability_into_vcf] *)

(** A cell of the detectability table as the table reader hands it over:
    text, or an integer for a column of integers. *)
Inductive cell : Type :=
| CStr (s : string)
| CInt (n : Z).

Definition cell_eqb (a b : cell) : bool :=
  match a, b with
  | CStr s, CStr t => String.eqb s t
  | CInt n, CInt m => Z.eqb n m
  | _, _ => false
  end.

(** A row of the table. [Detectability_Score] is kept as the text that
    string formatting gives it. *)
Record table_row : Type := {
  Chrom : cell;
  Pos : cell;
  Ref : cell;
  Alt : cell;
  Detectability_Score : string;
  Detectability_Condition : cell
}.

Definition vcf_key : Type := (cell * cell * cell * cell)%type.

Definition vcf_key_eqb (a b : vcf_key) : bool :=
  let '(a1, a2, a3, a4) := a in
  let '(b1, b2, b3, b4) := b in
  cell_eqb a1 b1 && cell_eqb a2 b2 && cell_eqb a3 b3 && cell_eqb a4 b4.

Record det_entry : Type := { condition : string; score : string }.

Definition det_dict : Type := list (vcf_key * det_entry).

(** Lines 13-18: the table as a dictionary keyed by the identity tuple. *)
Definition detectability_data_dict (tsv_df : list table_row) : det_dict :=
  fold_left
    (fun d row =>
       dict_set vcf_key_eqb d (Chrom row, Pos row, Ref row, Alt row)
         {| condition :=
              if cell_eqb (Detectability_Condition row) (CStr "Detectable")
              then "Yes" else "No";
            score := Detectability_Score row |})
    tsv_df [].

Definition DET_header : string :=
  ("##INFO=<ID=DET,Number=1,Type=String,Description=" ++ dquote
   ++ "Detectability status (Yes if detectable, No if non-detectable)"
   ++ dquote ++ ">" ++ nl)%string.

Definition DETS_header : string :=
  ("##INFO=<ID=DETS,Number=1,Type=Float,Description=" ++ dquote
   ++ "Detectability Score" ++ dquote ++ ">" ++ nl)%string.

(** The variables of the loop over the lines of the VCF. [info_idx] is
    unbound until a line starting with [#C] has been seen. *)
Record merge_state : Type := {
  info_added : bool;
  info_idx : option Z;
  updated_vcf_lines : list string
}.

Definition append_lines (st : merge_state) (idx : option Z) (added : bool)
    (ls : list string) : merge_state :=
  {| info_added := added; info_idx := idx;
     updated_vcf_lines := updated_vcf_lines st ++ ls |}.

(** Line 43: the identity tuple of a data record. *)
Definition record_key (columns : list string) : result vcf_key :=
  c0 <- py_index columns 0 ;;
  c1 <- py_index columns 1 ;;
  pos <- py_int c1 ;;
  c3 <- py_index columns 3 ;;
  c4 <- py_index columns 4 ;;
  Ok (CStr c0, CInt pos, CStr c3, CStr c4).

(** Lines 46-49: the record with its INFO column extended; [idx] is
    [info_idx] at that point. *)
Definition annotate (columns : list string) (idx : option Z) (entry : det_entry)
  : result string :=
  i <- match idx with Some i => Ok i | None => Raise UnboundLocalError end ;;
  old <- py_index columns i ;;
  columns' <- py_setitem columns i
                (old ++ ";DET=" ++ condition entry ++ ";DETS=" ++ score entry)%string ;;
  Ok (join (String tab EmptyString) columns' ++ nl)%string.

(** Lines 41-51: a data record. The result is the line appended to the
    output. *)
Definition merge_record (d : det_dict) (idx : option Z) (line : string)
  : result string :=
  let columns := split_on tab (strip line) in
  vcf_id <- record_key columns ;;
  match dict_get vcf_key_eqb d vcf_id with
  | Some entry => annotate columns idx entry
  | None => Ok line
  end.

(** Lines 27-51: the body of the loop, for one line. *)
Definition merge_line (d : det_dict) (st : merge_state) (line : string)
  : result merge_state :=
  idx <- (if startswith line "#C"
          then i <- list_index (split_ws (strip line)) "INFO" ;; Ok (Some i)
          else Ok (info_idx st)) ;;
  if startswith line "##INFO" then
    if negb (info_added st)
    then Ok (append_lines st idx true [line; DET_header; DETS_header])
    else Ok (append_lines st idx (info_added st) [line])
  else if startswith line "##" || startswith line "#" then
    Ok (append_lines st idx (info_added st) [line])
  else
    out <- merge_record d idx line ;;
    Ok (append_lines st idx (info_added st) [out]).

Definition merge_init : merge_state :=
  {| info_added := false; info_idx := None; updated_vcf_lines := [] |}.

(** [merge_detectability_into_vcf]: the table and the lines of the VCF
    (as iterating the file gives them) to the lines written out. *)
Definition merge_detectability_into_vcf (tsv_df : list table_row)
    (vcf_file : list string) : result (list string) :=
  st <- for_each (merge_line (detectability_data_dict tsv_df)) vcf_file merge_init ;;
  Ok (updated_vcf_lines st).

(** ** Vocabulary of the properties *)

(** Integer ceiling of [a / b] for [b > 0]. *)
Definition ceil_div (a b : Z) : Z := (a + b - 1) / b.

(** What the merge pass writes for a line that adds no header: a header
    line as it is, a data record as [merge_record] gives it. *)
Definition passed_through (d : det_dict) (line out : string) : Prop :=
  if startswith line "#" then out = line
  else exists idx, merge_record d idx line = Ok out.

(** [c in s]. *)
Fixpoint has_char (c : ascii) (s : string) : bool :=
  match s with
  | EmptyString => false
  | String c' s' => Ascii.eqb c c' || has_char c s'
  end.

(** The indel rule as the design document words it: each alternate whose
    length difference is the indel length of the read is a match, and,
    apart from that, a read without indel is one reference match. *)
Definition indel_rule_as_worded (ref : string) (alt_alleles : list string)
    (st : counts) (indel : Z) : result counts :=
  '(ref_count, allele_counts) <-
    for_each
      (fun '(ref_count, allele_counts) a =>
         if indel =? str_len a - str_len ref
         then d <- dict_incr allele_counts a ;; Ok (ref_count, d)
         else Ok (ref_count, allele_counts))
      alt_alleles st ;;
  Ok (if indel =? 0 then ref_count + 1 else ref_count, allele_counts).

(** The total informative count of a variant. *)
Definition total_count (st : counts) : Z := fst st + py_sum (map snd (snd st)).

(** Every counter is at least 0. *)
Definition counts_nonneg (st : counts) : Prop :=
  0 <= fst st /\ Forall (fun kv => 0 <= snd kv) (snd st).

(** The invariant of the counting loops: no counter below 0, and the keys
    of [allele_counts] as they were. *)
Definition counting_inv (keys : list string) (st : counts) : Prop :=
  counts_nonneg st /\ map fst (snd st) = keys.

(** The identity tuple of a result, and of a row of the output. *)
Definition row_identity (r : result_row) : string * Z * string * string :=
  (chrom r, pos r, ref r, alt r).

Definition output_identity (o : output_row) : string * Z * string * string :=
  (out_chrom o, out_pos o, out_ref o, out_alt o).

(** The row [o] of the output is about the pair [r]. *)
Definition same_pair (r : result_row) (o : output_row) : Prop :=
  out_chrom o = chrom r /\ out_pos o = pos r /\
  out_ref o = ref r /\ out_alt o = alt r.

(** What counting and scoring guarantee of a row: the variant-read count
    is at least 0, and a row without variant reads has [lod = -inf]. *)
Definition row_ok (r : result_row) : Prop :=
  0 <= num_variant_reads r /\ (num_variant_reads r = 0 -> lod r = NegInf).

(** The score and the label that the design document gives a scored
    pair [r]. *)
Definition scored_as_documented (r : result_row) (score : score_t) (label : string)
  : Prop :=
  match lod r with
  | NegInf => score = IntScore 0 /\ label = "Non-detectable"
  | Finite x =>
      if coverage r <=? 1
      then score = IntScore 0 /\ label = "Non-detectable"
      else score = FloatScore (Finite x) /\
           ((2.50 <= x)%R /\ label = "Detectable" \/
            (x < 2.50)%R /\ label = "Non-detectable")
  end.

(** A line of the VCF has a position field: it is a header line, or it
    has at least two tab-separated fields. *)
Definition has_pos_field (line : string) : bool :=
  startswith line "#" || (2 <=? py_len (split_on tab (strip line))).

(** A line of the VCF qualifies for scoring: it is no header line and its
    second field reads as an integer. *)
Definition qualifies (line : string) : bool :=
  negb (startswith line "#") &&
  match py_index (split_on tab (strip line)) 1 with
  | Ok f1 => match py_int f1 with Ok _ => true | Raise _ => false end
  | Raise _ => false
  end.

(** The variant-read count of a row lies between 0 and its coverage. *)
Definition row_bounded (r : result_row) : Prop :=
  0 <= num_variant_reads r <= coverage r.

(** Lines 38-61: what a read shows at an SNV or MNV site: nothing when it
    is a reference skip or a deletion, else the base at its position (a
    reference of length 1) or the bases from its position on, as many as
    the reference has. *)
Definition read_shows (ref : string) (r : pileup_read) : result (option string) :=
  if negb (is_refskip r) then
    if str_len ref =? 1 then
      if negb (is_del r) then
        seq <- not_none (query_sequence r) ;;
        i <- not_none (query_position r) ;;
        base <- str_index seq i ;;
        Ok (Some base)
      else Ok None
    else
      if negb (is_del r) then
        start <- not_none (query_position r) ;;
        seq <- not_none (query_sequence r) ;;
        Ok (Some (str_slice seq start (start + str_len ref)))
      else Ok None
  else Ok None.

(** The texts that are there. *)
Definition shown_texts (l : list (option string)) : list string :=
  flat_map (fun o => match o with Some x => [x] | None => [] end) l.

(** How often [x] is in [l]. *)
Definition occurrences (x : string) (l : list string) : Z :=
  Z.of_nat (count_occ string_dec l x).

(** The counters of an SNV or MNV site after reads that show [texts]. *)
Definition sequence_counts (ref : string) (keys : list string) (texts : list string)
  : counts :=
  (occurrences ref texts,
   map (fun a => (a, if String.eqb a ref then 0 else occurrences a texts)) keys).

(** The lines of a VCF with the two new header lines put right after the
    first line that starts with [##INFO] (and as they are when there is
    none). *)
Fixpoint with_new_headers (lines : list string) : list string :=
  match lines with
  | [] => []
  | l :: lines' =>
      if startswith l "##INFO" then l :: DET_header :: DETS_header :: lines'
      else l :: with_new_headers lines'
  end.

(** Line 15: the key and the entry that a row of the table gives. *)
Definition table_key (row : table_row) : vcf_key :=
  (Chrom row, Pos row, Ref row, Alt row).

Definition table_entry (row : table_row) : det_entry :=
  {| condition :=
       if cell_eqb (Detectability_Condition row) (CStr "Detectable")
       then "Yes" else "No";
     score := Detectability_Score row |}.

(** No data record of [lines] has its identity tuple in [d]. *)
Definition no_record_matches (d : det_dict) (lines : list string) : Prop :=
  forall line vcf_id,
    In line lines -> startswith line "#" = false ->
    record_key (split_on tab (strip line)) = Ok vcf_id ->
    dict_get vcf_key_eqb d vcf_id = None.

(** The text that line 48 adds to the INFO column. *)
Definition info_suffix (entry : det_entry) : string :=
  (";DET=" ++ condition entry ++ ";DETS=" ++ score entry)%string.

(** The nearest [#C] line before a record: the last of [lines] that
    starts with [#C]. *)
Definition last_chrom_line (lines : list string) : option string :=
  find (fun l => startswith l "#C") (rev lines).




(** ** Sample inputs *)

Definition tsv_line (fields : list string) : string :=
  (join (String tab EmptyString) fields ++ nl)%string.

Definition line_fileformat : string := ("##fileformat=VCFv4.2" ++ nl)%string.
Definition line_info_dp : string := ("##INFO=<ID=DP>" ++ nl)%string.
Definition line_info_af : string := ("##INFO=<ID=AF>" ++ nl)%string.
Definition line_chrom : string :=
  tsv_line ["#CHROM"; "POS"; "ID"; "REF"; "ALT"; "QUAL"; "FILTER"; "INFO"].
Definition line_record_100 : string :=
  tsv_line ["chr1"; "100"; "."; "A"; "T"; "."; "."; "DP=10"].
Definition line_record_200 : string :=
  tsv_line ["chr1"; "200"; "."; "A"; "ATT"; "."; "."; "DP=7"].
Definition line_record_bad_pos : string :=
  tsv_line ["chr1"; "abc"; "."; "A"; "T"; "."; "."; "DP=3"].
Definition line_snv_A_T : string :=
  tsv_line ["chr1"; "100"; "."; "A"; "T"; "."; "."; "DP=1"].
Definition line_indel_A_T_TT : string :=
  tsv_line ["chr1"; "100"; "."; "A"; "T,TT"; "."; "."; "DP=1"].

Definition sample_table : list table_row :=
  [{| Chrom := CStr "chr1"; Pos := CInt 100; Ref := CStr "A"; Alt := CStr "T";
      Detectability_Score := "2.756"; Detectability_Condition := CStr "Detectable" |}].

(** A read that is not a reference skip and not a deletion, with the
    bases [seq] from the variant position on and the indel length [i]. *)
Definition plain_read (seq : string) (i : Z) : pileup_read :=
  {| is_refskip := false; is_del := false; query_position := Some 0;
     query_sequence := Some seq; indel := i |}.

(** A read that shows [A] at the position and has three inserted bases
    after it. *)
Definition read_A_ins3 : pileup_read := plain_read "AGGGC" 3.

(** An evidence source without reads, and one with the same single read
    at every position. *)
Definition no_reads : alignment_file := fun _ _ _ => [].

Definition one_read (r : pileup_read) : alignment_file := fun _ _ _ => [[r]].

(** An evidence source with ten reads at every position: seven show [A]
    and three show [T]. *)
Definition reads_7A_3T : alignment_file :=
  fun _ _ _ => [repeat (plain_read "A" 0) 7 ++ repeat (plain_read "T" 0) 3].

(** The likelihood ratio of three variant reads among ten, with the
    default probabilities. *)
Definition ratio_3_of_10 : R :=
  (0.999 * IZR 3 / (IZR (10 - 3) * 0.0001 + IZR 3 * 0.001))%R.

(** ** Properties of the runtime *)

Lemma for_each_app {A S : Type} (body : S -> A -> result S) (xs ys : list A) (s : S) :
  for_each body (xs ++ ys) s = (s' <- for_each body xs s ;; for_each body ys s').
Proof.
  revert s. induction xs as [| x xs IH]; intros s; cbn; [reflexivity |].
  destruct (body s x); cbn; [apply IH | reflexivity].
Qed.

Lemma for_each_invariant {A S : Type} (P : S -> Prop) (body : S -> A -> result S) :
  (forall s x s', P s -> body s x = Ok s' -> P s') ->
  forall xs s s', P s -> for_each body xs s = Ok s' -> P s'.
Proof.
  intros Hstep. induction xs as [| x xs IH]; intros s s' Hs H; cbn in H.
  - now injection H as <-.
  - destruct (body s x) as [s1 |] eqn:H1; cbn in H; [| discriminate].
    eapply IH; [| eassumption]. eapply Hstep; eassumption.
Qed.

Lemma map_result_Forall2 {A B : Type} (f : A -> result B) (xs : list A) :
  forall ys, map_result f xs = Ok ys -> Forall2 (fun x y => f x = Ok y) xs ys.
Proof.
  induction xs as [| x xs IH]; intros ys H; cbn in H.
  - injection H as <-. constructor.
  - destruct (f x) as [y |] eqn:Hy; cbn in H; [| discriminate].
    destruct (map_result f xs) as [ys' |]; cbn in H; [| discriminate].
    injection H as <-. constructor; auto.
Qed.

Lemma map_result_total {A B : Type} (f : A -> result B) (xs : list A) :
  Forall (fun x => exists y, f x = Ok y) xs -> exists ys, map_result f xs = Ok ys.
Proof.
  induction 1 as [| x xs [y Hy] _ [ys IH]]; cbn.
  - eauto.
  - rewrite Hy, IH. cbn. eauto.
Qed.

Lemma Forall2_nth_error_l {A B : Type} (R : A -> B -> Prop) (xs : list A) (ys : list B) :
  Forall2 R xs ys ->
  forall i x, nth_error xs i = Some x -> exists y, nth_error ys i = Some y /\ R x y.
Proof.
  induction 1 as [| x0 y0 xs ys Hxy _ IH]; intros i x Hi.
  - destruct i; discriminate.
  - destruct i as [| i]; cbn in *.
    + injection Hi as <-. eauto.
    + eauto.
Qed.

Lemma Forall2_In_l {A B : Type} (R : A -> B -> Prop) (xs : list A) (ys : list B) (x : A) :
  Forall2 R xs ys -> In x xs -> exists y, In y ys /\ R x y.
Proof.
  induction 1 as [| x0 y0 xs ys Hxy _ IH]; intros Hin; [destruct Hin |].
  destruct Hin as [-> | Hin].
  - exists y0. split; [now left | assumption].
  - destruct (IH Hin) as (y & Hy & HR). exists y. split; [now right | assumption].
Qed.

Lemma Forall2_Forall_r {A B : Type} (R : A -> B -> Prop) (P : A -> Prop)
    (Q : B -> Prop) (xs : list A) (ys : list B) :
  (forall x y, P x -> R x y -> Q y) ->
  Forall2 R xs ys -> Forall P xs -> Forall Q ys.
Proof.
  intros HPQ. induction 1 as [| x y xs ys Hxy _ IH]; intros HP; constructor.
  - inversion HP; subst. eauto.
  - apply IH. now inversion HP.
Qed.

Lemma Forall2_compose {A B C : Type} (R : A -> B -> Prop) (S : B -> C -> Prop)
    (xs : list A) (ys : list B) :
  Forall2 R xs ys ->
  forall zs, Forall2 S ys zs ->
             Forall2 (fun x z => exists y, R x y /\ S y z) xs zs.
Proof.
  induction 1 as [| x y xs ys Hxy _ IH]; intros zs HS; inversion HS; subst;
    constructor; eauto.
Qed.

Section DictFacts.
Context {V : Type}.
Implicit Types (d : list (string * V)) (k : string) (v : V).

Lemma dict_get_In d k v :
  dict_get String.eqb d k = Some v -> exists k', In (k', v) d.
Proof.
  induction d as [| [k' v'] d IH]; cbn; [discriminate |].
  destruct (String.eqb k k').
  - intros [= ->]. eauto.
  - intros H. destruct (IH H) as [k'' ?]. eauto.
Qed.

Lemma dict_set_values (P : V -> Prop) d k v :
  Forall (fun kv => P (snd kv)) d -> P v ->
  Forall (fun kv => P (snd kv)) (dict_set String.eqb d k v).
Proof.
  intros Hd Hv. induction Hd as [| [k' v'] d Hk Hd IH]; cbn.
  - repeat constructor. exact Hv.
  - destruct (String.eqb k k'); constructor; cbn in *; auto.
Qed.

Lemma dict_set_known_key d k v v0 :
  dict_get String.eqb d k = Some v0 ->
  map fst (dict_set String.eqb d k v) = map fst d.
Proof.
  induction d as [| [k' v'] d IH]; cbn; [discriminate |].
  destruct (String.eqb k k'); cbn; [reflexivity |].
  intros H. now rewrite IH.
Qed.

Lemma dict_set_keeps_keys d k v k0 :
  In k0 (map fst d) -> In k0 (map fst (dict_set String.eqb d k v)).
Proof.
  induction d as [| [k' v'] d IH]; cbn; [tauto |].
  destruct (String.eqb k k'); cbn; tauto.
Qed.

Lemma dict_set_has_key d k v : In k (map fst (dict_set String.eqb d k v)).
Proof.
  induction d as [| [k' v'] d IH]; cbn; [auto |].
  destruct (String.eqb_spec k k'); cbn; auto.
Qed.

End DictFacts.

(** ** Properties of [chunkify] *)

Section Chunks.
Context {A : Type}.

Lemma firstn_clip (n : nat) (l : list A) :
  firstn (Nat.min n (length l)) l = firstn n l.
Proof.
  destruct (Nat.le_ge_cases n (length l)) as [H | H].
  - now rewrite Nat.min_l.
  - rewrite Nat.min_r by assumption.
    now rewrite !firstn_all2 by lia.
Qed.

(** Inside the list, a slice of width [s] is [firstn] after [skipn]. *)
Lemma py_slice_window (l : list A) (i s : Z) :
  0 <= i < py_len l -> 0 < s ->
  py_slice l i (i + s) = firstn (Z.to_nat s) (skipn (Z.to_nat i) l).
Proof.
  intros Hi Hs. unfold py_slice, adjust_index, py_len in *.
  destruct (Z.ltb_spec i 0); [lia |].
  destruct (Z.ltb_spec (i + s) 0); [lia |].
  rewrite (Z.min_l i) by lia.
  rewrite <- (firstn_clip (Z.to_nat s)).
  f_equal. rewrite length_skipn. lia.
Qed.

(** Cutting a list into [m] windows of width [s] loses nothing when the
    windows cover it. *)
Lemma concat_windows (s : nat) :
  forall (m : nat) (l : list A),
    (length l <= m * s)%nat ->
    concat (map (fun k => firstn s (skipn (k * s) l)) (seq 0 m)) = l.
Proof.
  induction m as [| m IH]; intros l Hl.
  - destruct l; [reflexivity | simpl in Hl; lia].
  - rewrite <- cons_seq, <- seq_shift. cbn [map concat].
    rewrite map_map, Nat.mul_0_l, skipn_O.
    transitivity (firstn s l ++ skipn s l); [| apply firstn_skipn].
    f_equal.
    etransitivity; [| apply (IH (skipn s l)); rewrite length_skipn; lia].
    f_equal. apply map_ext. intros k.
    rewrite skipn_skipn. do 2 f_equal. lia.
Qed.

(** The chunks as windows over natural-number offsets. *)
Lemma chunkify_windows (lst : list A) (W : Z) :
  0 < Z.min W (py_len lst) ->
  let s := Z.max 1 (py_len lst / Z.min W (py_len lst)) in
  let m := Z.to_nat ((py_len lst - 1) / s + 1) in
  chunkify lst W =
  map (fun k => firstn (Z.to_nat s) (skipn (k * Z.to_nat s) lst)) (seq 0 m).
Proof.
  intros Hn s m. unfold chunkify.
  destruct (Z.leb_spec (Z.min W (py_len lst)) 0); [lia |].
  fold s. unfold py_range.
  assert (Hs : 0 < s) by (unfold s; lia).
  assert (HL : 0 < py_len lst) by lia.
  destruct (Z.ltb_spec 0 s); [| lia].
  destruct (Z.ltb_spec 0 (py_len lst)); [| lia].
  cbn [andb]. rewrite map_map.
  replace (py_len lst - 0 - 1) with (py_len lst - 1) by lia. fold m.
  apply map_ext_in. intros k Hk. apply in_seq in Hk.
  assert (Hq : 0 <= (py_len lst - 1) / s) by (apply Z.div_pos; lia).
  assert (Hks : Z.of_nat k * s <= py_len lst - 1).
  { transitivity (((py_len lst - 1) / s) * s).
    - apply Z.mul_le_mono_nonneg_r; lia.
    - rewrite Z.mul_comm. apply Z.mul_div_le. lia. }
  rewrite py_slice_window by lia.
  do 2 f_equal. lia.
Qed.

Lemma window_count_covers (L s : Z) :
  0 < L -> 0 < s -> L <= ((L - 1) / s + 1) * s.
Proof.
  intros HL Hs.
  pose proof (Z.div_mod (L - 1) s ltac:(lia)) as E.
  pose proof (Z.mod_pos_bound (L - 1) s Hs) as B.
  nia.
Qed.

Lemma chunkify_concat (lst : list A) (W : Z) : concat (chunkify lst W) = lst.
Proof.
  destruct (Z.lt_ge_cases 0 (Z.min W (py_len lst))) as [Hn | Hn].
  - rewrite chunkify_windows by assumption.
    set (s := Z.max 1 (py_len lst / Z.min W (py_len lst))).
    apply concat_windows.
    assert (Hs : 0 < s) by (unfold s; lia).
    assert (HL : 0 < py_len lst) by lia.
    pose proof (window_count_covers (py_len lst) s HL Hs) as Hc.
    assert (Hq : 0 <= (py_len lst - 1) / s) by (apply Z.div_pos; lia).
    unfold py_len in *. nia.
  - unfold chunkify.
    destruct (Z.leb_spec (Z.min W (py_len lst)) 0); [| lia].
    cbn. apply app_nil_r.
Qed.

Lemma chunkify_nonempty (lst : list A) (W : Z) :
  lst <> [] -> Forall (fun chunk => chunk <> []) (chunkify lst W).
Proof.
  intros Hne.
  destruct (Z.lt_ge_cases 0 (Z.min W (py_len lst))) as [Hn | Hn].
  - rewrite chunkify_windows by assumption.
    set (s := Z.max 1 (py_len lst / Z.min W (py_len lst))).
    assert (Hs : 0 < s) by (unfold s; lia).
    assert (HL : 0 < py_len lst) by lia.
    assert (Hq : 0 <= (py_len lst - 1) / s) by (apply Z.div_pos; lia).
    apply Forall_forall. intros c Hc. apply in_map_iff in Hc.
    destruct Hc as [k [<- Hk]]. apply in_seq in Hk.
    assert (Hks : Z.of_nat k * s <= py_len lst - 1).
    { transitivity (((py_len lst - 1) / s) * s).
      - apply Z.mul_le_mono_nonneg_r; lia.
      - rewrite Z.mul_comm. apply Z.mul_div_le. lia. }
    intros E. apply (f_equal (@length A)) in E.
    rewrite length_firstn, length_skipn in E. cbn in E.
    unfold py_len in *. nia.
  - unfold chunkify.
    destruct (Z.leb_spec (Z.min W (py_len lst)) 0); [| lia].
    constructor; [assumption | constructor].
Qed.

Lemma chunkify_length (lst : list A) (W : Z) :
  0 < Z.min W (py_len lst) ->
  py_len (chunkify lst W) =
  ceil_div (py_len lst) (py_len lst / Z.min W (py_len lst)).
Proof.
  intros Hn. rewrite chunkify_windows by assumption.
  unfold py_len at 1. rewrite length_map, length_seq.
  set (L := py_len lst) in *. set (n := Z.min W L) in *.
  assert (Hq : 1 <= L / n).
  { apply Z.div_le_lower_bound; lia. }
  rewrite Z.max_r by lia.
  assert (0 <= (L - 1) / (L / n)) by (apply Z.div_pos; lia).
  rewrite Z2Nat.id by lia.
  unfold ceil_div.
  replace (L + L / n - 1) with (L - 1 + 1 * (L / n)) by lia.
  rewrite Z.div_add by lia. reflexivity.
Qed.

End Chunks.

(** C9. For a non-empty list and any requested worker count, every chunk
    that [chunkify] returns is non-empty, and the chunks concatenated in
    order give back the list. *)
Theorem chunkify_chunks_nonempty_and_concat {A : Type} (lst : list A) (W : Z) :
  lst <> [] ->
  Forall (fun chunk => chunk <> []) (chunkify lst W) /\
  concat (chunkify lst W) = lst.
Proof.
  intros Hne. split.
  - now apply chunkify_nonempty.
  - apply chunkify_concat.
Qed.

Lemma chunkify_chunks_nonempty_and_concat_witness :
  Forall (fun chunk => chunk <> []) (chunkify [1; 2; 3; 4; 5] 2) /\
  concat (chunkify [1; 2; 3; 4; 5] 2) = [1; 2; 3; 4; 5].
Proof.
  apply (chunkify_chunks_nonempty_and_concat [1; 2; 3; 4; 5] 2).
  discriminate.
Defined.

(** C3, as stated, fails: five variants and three requested workers give
    five chunks (of size [5 // 3 = 1]), not [min(3, 5) = 3]. *)
Lemma chunkify_five_by_three :
  chunkify [1; 2; 3; 4; 5] 3 = [[1]; [2]; [3]; [4]; [5]] /\
  Z.min 3 (py_len [1; 2; 3; 4; 5]) = 3 /\
  py_len (chunkify [1; 2; 3; 4; 5] 3) <> Z.min 3 (py_len [1; 2; 3; 4; 5]).
Proof.
  repeat split. vm_compute. discriminate.
Qed.

(** C3, amended. For a list of length [L > 0]: a non-positive request
    gives the single chunk [[lst]]; a positive request [W], with
    [n = min(W, L)], cuts the list into pieces of size [L // n] and gives
    [n + ceil((L mod n) / (L // n))] chunks, which is at least [n] and is
    [n] exactly when [n] divides [L]. *)
Theorem chunkify_count {A : Type} (lst : list A) (W : Z) :
  0 < py_len lst ->
  (W <= 0 -> chunkify lst W = [lst]) /\
  (0 < W ->
   let n := Z.min W (py_len lst) in
   py_len (chunkify lst W) = n + ceil_div (py_len lst mod n) (py_len lst / n) /\
   n <= py_len (chunkify lst W) /\
   (py_len (chunkify lst W) = n <-> py_len lst mod n = 0)).
Proof.
  intros HL. split.
  - intros HW. unfold chunkify.
    destruct (Z.leb_spec (Z.min W (py_len lst)) 0); [reflexivity | lia].
  - intros HW n.
    assert (Hn : 0 < n) by (unfold n; lia).
    rewrite chunkify_length by exact Hn. fold n.
    set (L := py_len lst) in *.
    assert (Hq : 1 <= L / n) by (apply Z.div_le_lower_bound; unfold n; lia).
    pose proof (Z.div_mod L n ltac:(lia)) as E.
    pose proof (Z.mod_pos_bound L n Hn) as B.
    assert (Hc : ceil_div L (L / n) = n + ceil_div (L mod n) (L / n)).
    { unfold ceil_div.
      replace (L + L / n - 1) with (L mod n + L / n - 1 + n * (L / n)) by lia.
      rewrite Z.div_add by lia. lia. }
    assert (Hr : 0 <= ceil_div (L mod n) (L / n)).
    { unfold ceil_div. apply Z.div_pos; lia. }
    rewrite Hc. repeat split; try lia.
    + intros H0. assert (Hz : ceil_div (L mod n) (L / n) = 0) by lia.
      unfold ceil_div in Hz.
      apply Z.div_small_iff in Hz; lia.
    + intros H0. rewrite H0. unfold ceil_div.
      rewrite Z.div_small; lia.
Qed.

Lemma chunkify_count_witness :
  (3 <= 0 -> chunkify [1; 2; 3; 4; 5] 3 = [[1; 2; 3; 4; 5]]) /\
  (0 < 3 ->
   let n := Z.min 3 (py_len [1; 2; 3; 4; 5]) in
   py_len (chunkify [1; 2; 3; 4; 5] 3) =
   n + ceil_div (py_len [1; 2; 3; 4; 5] mod n) (py_len [1; 2; 3; 4; 5] / n) /\
   n <= py_len (chunkify [1; 2; 3; 4; 5] 3) /\
   (py_len (chunkify [1; 2; 3; 4; 5] 3) = n <-> py_len [1; 2; 3; 4; 5] mod n = 0)).
Proof.
  apply (chunkify_count [1; 2; 3; 4; 5] 3). reflexivity.
Defined.

(** ** Properties of the merge pass *)

Lemma startswith_first (line p : string) (c : ascii) :
  startswith line (String c p) = true ->
  startswith line (String c EmptyString) = true.
Proof.
  unfold startswith. destruct line as [| a line]; cbn; [discriminate |].
  destruct (ascii_dec c a); [| discriminate].
  intros _. now destruct line.
Qed.

Section MergeLoop.
Variable d : det_dict.

(** A line that adds no header contributes exactly one output line. *)
Lemma merge_line_plain (st st' : merge_state) (line : string) :
  merge_line d st line = Ok st' ->
  info_added st = true \/ startswith line "##INFO" = false ->
  exists out,
    updated_vcf_lines st' = updated_vcf_lines st ++ [out] /\
    passed_through d line out /\
    info_added st' = info_added st.
Proof.
  unfold merge_line. intros H Hplain.
  destruct (startswith line "#C") eqn:HC.
  - assert (Hh : startswith line "#" = true) by (eapply startswith_first; eassumption).
    destruct (list_index (split_ws (strip line)) "INFO") as [i |]; cbn in H;
      [| discriminate].
    destruct (startswith line "##INFO") eqn:HI.
    + destruct Hplain as [Ha | ?]; [| discriminate].
      rewrite Ha in H. cbn in H. injection H as <-.
      exists line. unfold passed_through. rewrite Hh. auto.
    + rewrite Hh, orb_true_r in H. injection H as <-.
      exists line. unfold passed_through. rewrite Hh. auto.
  - cbn in H.
    destruct (startswith line "##INFO") eqn:HI.
    + assert (Hh : startswith line "#" = true) by (eapply startswith_first; eassumption).
      destruct Hplain as [Ha | ?]; [| discriminate].
      rewrite Ha in H. cbn in H. injection H as <-.
      exists line. unfold passed_through. rewrite Hh. auto.
    + destruct (startswith line "#") eqn:Hh.
      * rewrite orb_true_r in H. injection H as <-.
        exists line. unfold passed_through. rewrite Hh. auto.
      * destruct (startswith line "##") eqn:Hhh.
        { apply startswith_first in Hhh. congruence. }
        cbn in H.
        destruct (merge_record d (info_idx st) line) as [out |] eqn:Hr; cbn in H;
          [| discriminate].
        injection H as <-.
        exists out. unfold passed_through. rewrite Hh. eauto.
Qed.

(** The first [##INFO] line is written, then the two new header lines. *)
Lemma merge_line_first_info (st st' : merge_state) (line : string) :
  merge_line d st line = Ok st' ->
  info_added st = false -> startswith line "##INFO" = true ->
  updated_vcf_lines st' = updated_vcf_lines st ++ [line; DET_header; DETS_header] /\
  info_added st' = true.
Proof.
  unfold merge_line. intros H Ha HI.
  destruct (startswith line "#C");
    [destruct (list_index (split_ws (strip line)) "INFO"); [| discriminate] |];
    cbn in H; rewrite HI, Ha in H; cbn in H; injection H as <-; auto.
Qed.

(** A run of lines that add no header. *)
Lemma merge_loop_plain (ls : list string) :
  forall st st' : merge_state,
    for_each (merge_line d) ls st = Ok st' ->
    info_added st = true \/ Forall (fun l => startswith l "##INFO" = false) ls ->
    exists outs,
      updated_vcf_lines st' = updated_vcf_lines st ++ outs /\
      Forall2 (passed_through d) ls outs /\
      info_added st' = info_added st.
Proof.
  induction ls as [| l ls IH]; intros st st' H Hplain; cbn in H.
  - injection H as <-. exists []. rewrite app_nil_r. auto.
  - destruct (merge_line d st l) as [st1 |] eqn:H1; cbn in H; [| discriminate].
    apply merge_line_plain in H1 as (out & Ho & Hp & Ha).
    + apply IH in H as (outs & Hos & Hps & Has).
      * exists (out :: outs). rewrite Hos, Ho, <- app_assoc. cbn.
        repeat split; [constructor; assumption | congruence].
      * rewrite Ha. destruct Hplain as [| Hf]; [auto |].
        right. now inversion Hf.
    + destruct Hplain as [| Hf]; [auto |]. right. now inversion Hf.
Qed.

End MergeLoop.

(** C1, as stated, fails: the two new header lines come right after the
    first [##INFO] line, not before it. *)
Lemma merge_headers_not_before_first_info :
  merge_detectability_into_vcf [] [line_fileformat; line_info_dp; line_info_af]
  = Ok [line_fileformat; line_info_dp; DET_header; DETS_header; line_info_af]
  /\ (forall pre post : list string,
        [line_fileformat; line_info_dp; DET_header; DETS_header; line_info_af]
        <> pre ++ DET_header :: DETS_header :: line_info_dp :: post).
Proof.
  split; [reflexivity |].
  intros pre post E.
  do 5 (destruct pre as [| ? pre]; [cbv in E; discriminate E |];
        cbn [app] in E; injection E as _ E).
  destruct pre; discriminate E.
Qed.

(** C1, amended. When the merge pass completes on a VCF whose first line
    starting with [##INFO] is [l], the output is the image of the lines
    before [l], then [l], then the [DET] and [DETS] header lines, then the
    image of the lines after [l]: the two lines come right after the first
    [##INFO] line, and every other input line gives exactly one output
    line (itself for a header line), however many of them start with
    [##INFO]. *)
Theorem merge_inserts_after_first_info (tsv_df : list table_row)
    (pre post : list string) (l : string) (out : list string) :
  Forall (fun x => startswith x "##INFO" = false) pre ->
  startswith l "##INFO" = true ->
  merge_detectability_into_vcf tsv_df (pre ++ l :: post) = Ok out ->
  exists pre' post',
    out = pre' ++ l :: DET_header :: DETS_header :: post' /\
    Forall2 (passed_through (detectability_data_dict tsv_df)) pre pre' /\
    Forall2 (passed_through (detectability_data_dict tsv_df)) post post'.
Proof.
  intros Hpre Hl H. unfold merge_detectability_into_vcf in H.
  set (d := detectability_data_dict tsv_df) in *.
  rewrite for_each_app in H. cbn [for_each] in H.
  destruct (for_each (merge_line d) pre merge_init) as [s1 |] eqn:H1; cbn in H;
    [| discriminate].
  destruct (merge_line d s1 l) as [s2 |] eqn:H2; cbn in H; [| discriminate].
  destruct (for_each (merge_line d) post s2) as [s3 |] eqn:H3; cbn in H;
    [| discriminate].
  injection H as <-.
  apply merge_loop_plain in H1 as (pre' & E1 & F1 & A1); [| now right].
  apply merge_line_first_info in H2 as (E2 & A2); [| now rewrite A1 | assumption].
  apply merge_loop_plain in H3 as (post' & E3 & F3 & _); [| now left].
  exists pre', post'. rewrite E3, E2, E1. cbn.
  rewrite <- app_assoc. cbn. auto.
Qed.

Lemma merge_inserts_after_first_info_witness :
  exists pre' post',
    [line_fileformat; line_info_dp; DET_header; DETS_header; line_info_af;
     line_chrom;
     tsv_line ["chr1"; "100"; "."; "A"; "T"; "."; "."; "DP=10;DET=Yes;DETS=2.756"];
     line_record_200]
    = pre' ++ line_info_dp :: DET_header :: DETS_header :: post' /\
    Forall2 (passed_through (detectability_data_dict sample_table))
      [line_fileformat] pre' /\
    Forall2 (passed_through (detectability_data_dict sample_table))
      [line_info_af; line_chrom; line_record_100; line_record_200] post'.
Proof.
  apply (merge_inserts_after_first_info sample_table [line_fileformat]
           [line_info_af; line_chrom; line_record_100; line_record_200]).
  - repeat constructor.
  - reflexivity.
  - reflexivity.
Defined.

(** C4. A data record whose position is not a number makes the merge pass
    raise [ValueError] ([int(columns[1])] is not guarded), while the
    scoring pass drops the same record and goes on. *)
Theorem merge_raises_on_non_numeric_position :
  merge_detectability_into_vcf sample_table
    [line_chrom; line_record_bad_pos; line_record_100]
  = Raise ValueError
  /\ read_vcf_lines [line_chrom; line_record_bad_pos; line_record_100]
     = Ok [line_record_100].
Proof.
  split; reflexivity.
Qed.

Lemma has_char_app (c : ascii) (a b : string) :
  has_char c (a ++ b)%string = has_char c a || has_char c b.
Proof.
  induction a as [| x a IH]; cbn; [reflexivity |].
  now rewrite IH, orb_assoc.
Qed.

Lemma join_two_has_sep (c : ascii) (a b : string) (rest : list string) :
  has_char c (join (String c EmptyString) (a :: b :: rest)) = true.
Proof.
  unfold join. cbn [String.concat].
  rewrite !has_char_app. cbn. rewrite Ascii.eqb_refl. cbn. apply orb_true_r.
Qed.

Lemma py_index_length {A : Type} (l : list A) (i : Z) (x : A) :
  py_index l i = Ok x -> 0 <= i -> i < py_len l.
Proof.
  unfold py_index. intros H Hi.
  destruct (Z.ltb_spec i 0); [lia |].
  destruct (Z.ltb_spec i 0); [lia |]. cbn in H.
  destruct (Z.leb_spec (py_len l) i); [discriminate | assumption].
Qed.

Lemma py_setitem_length {A : Type} (l l' : list A) (i : Z) (v : A) :
  py_setitem l i v = Ok l' -> length l' = length l.
Proof.
  unfold py_setitem, py_len. intros H.
  set (j := if i <? 0 then i + Z.of_nat (length l) else i) in *.
  destruct (Z.ltb_spec j 0); [discriminate |]. cbn in H.
  destruct (Z.leb_spec (Z.of_nat (length l)) j); [discriminate |].
  injection H as <-.
  rewrite length_app, length_firstn. cbn [length]. rewrite length_skipn. lia.
Qed.

(** An annotated record keeps its columns, so it holds a tab. *)
Lemma annotate_has_tab (columns : list string) (idx : option Z) (entry : det_entry)
    (vcf_id : vcf_key) (out : string) :
  record_key columns = Ok vcf_id ->
  annotate columns idx entry = Ok out ->
  has_char tab out = true.
Proof.
  unfold record_key, annotate. intros Hk Ha.
  destruct (py_index columns 0) as [c0 |]; cbn in Hk; [| discriminate].
  destruct (py_index columns 1) as [c1 |] eqn:H1; cbn in Hk; [| discriminate].
  apply py_index_length in H1; [| lia].
  destruct idx as [i |]; cbn in Ha; [| discriminate].
  destruct (py_index columns i) as [old |]; cbn in Ha; [| discriminate].
  destruct (py_setitem columns i _) as [columns' |] eqn:Hs; cbn in Ha; [| discriminate].
  apply py_setitem_length in Hs. injection Ha as <-.
  unfold py_len in H1.
  destruct columns' as [| a [| b rest]]; cbn in Hs; try lia.
  rewrite has_char_app, join_two_has_sep. reflexivity.
Qed.

(** What passes through is never one of the two new header lines, unless
    the input line already starts with [##INFO]. *)
Lemma passed_through_not_new_header (d : det_dict) (line out : string) :
  startswith line "##INFO" = false ->
  passed_through d line out ->
  out <> DET_header /\ out <> DETS_header.
Proof.
  unfold passed_through. intros HI Hp.
  destruct (startswith line "#") eqn:Hh.
  - subst out. split; intros ->; discriminate.
  - destruct Hp as [idx Hr]. unfold merge_record in Hr.
    destruct (record_key (split_on tab (strip line))) as [k |] eqn:Hk; cbn in Hr;
      [| discriminate].
    destruct (dict_get vcf_key_eqb d k) as [entry |].
    + apply (annotate_has_tab _ _ _ _ _ Hk) in Hr.
      split; intros ->; discriminate.
    + injection Hr as <-. split; intros ->; discriminate.
Qed.

(** ** Properties of the counting *)

(** C2. At an indel site with two alternates, a pileup of one read without
    indel gives [ref_count = 2]: the read is counted twice as a reference
    match, and the total is two for one informative read. *)
Theorem one_read_counted_twice_as_reference :
  length (concat [[plain_read "A" 0]]) = 1%nat
  /\ count_reads "A" ["AT"; "ATT"] [[plain_read "A" 0]]
     = Ok (2, [("AT", 0); ("ATT", 0)])
  /\ total_count (2, [("AT", 0); ("ATT", 0)]) = 2.
Proof. repeat split. Qed.

(** C5. At the same site the code and the rule as worded part: the rule
    gives one reference match, the code two. *)
Theorem indel_rule_differs_with_two_alternates :
  count_read "A" ["AT"; "ATT"] (0, init_allele_counts ["AT"; "ATT"]) (plain_read "A" 0)
  = Ok (2, [("AT", 0); ("ATT", 0)])
  /\ indel_rule_as_worded "A" ["AT"; "ATT"] (0, init_allele_counts ["AT"; "ATT"]) 0
     = Ok (1, [("AT", 0); ("ATT", 0)]).
Proof. split; reflexivity. Qed.

(** The scenario of the design document: with reference [A] and the
    single alternate [ATT], a read with indel +2 counts for [ATT] only, a
    read without indel for the reference only, a read with indel +1 for
    neither. *)
Lemma indel_scenario_A_ATT :
  count_read "A" ["ATT"] (0, [("ATT", 0)]) (plain_read "A" 2) = Ok (0, [("ATT", 1)])
  /\ count_read "A" ["ATT"] (0, [("ATT", 0)]) (plain_read "A" 0) = Ok (1, [("ATT", 0)])
  /\ count_read "A" ["ATT"] (0, [("ATT", 0)]) (plain_read "A" 1) = Ok (0, [("ATT", 0)]).
Proof. repeat split; reflexivity. Qed.

(** X2. At an indel site with a single alternate the code follows the
    rule as worded. *)
Lemma indel_rule_single_alternate (ref a : string) (st : counts) (r : pileup_read) :
  is_refskip r = false ->
  str_len ref <> str_len a ->
  count_read ref [a] st r = indel_rule_as_worded ref [a] st (indel r).
Proof.
  intros Hskip Hlen. unfold count_read, indel_rule_as_worded.
  rewrite Hskip. cbn [negb map py_max fold_left bind for_each].
  destruct (Z.eqb_spec (str_len ref) (str_len a)) as [E | _]; [contradiction |].
  unfold count_indel. destruct st as [ref_count allele_counts].
  destruct (Z.eqb_spec (indel r) (str_len a - str_len ref)) as [E | _].
  - destruct (dict_incr allele_counts a); cbn; [| reflexivity].
    destruct (Z.eqb_spec (indel r) 0); [lia | reflexivity].
  - cbn. destruct (indel r =? 0); reflexivity.
Qed.

Lemma indel_rule_single_alternate_witness :
  count_read "A" ["ATT"] (4, [("ATT", 1)]) (plain_read "ATTG" 2)
  = indel_rule_as_worded "A" ["ATT"] (4, [("ATT", 1)]) (indel (plain_read "ATTG" 2)).
Proof.
  apply (indel_rule_single_alternate "A" "ATT" (4, [("ATT", 1)]) (plain_read "ATTG" 2)).
  - reflexivity.
  - discriminate.
Defined.

Lemma init_allele_counts_keys (alt_alleles : list string) (a : string) :
  In a alt_alleles -> In a (map fst (init_allele_counts alt_alleles)).
Proof.
  unfold init_allele_counts.
  assert (G : forall d,
             In a alt_alleles \/ In a (map fst d) ->
             In a (map fst (fold_left
                              (fun d allele => dict_set String.eqb d allele 0)
                              alt_alleles d))).
  { induction alt_alleles as [| x xs IH]; intros d [H | H]; cbn.
    - destruct H.
    - exact H.
    - apply IH. destruct H as [-> | H]; [right; apply dict_set_has_key | now left].
    - apply IH. right. now apply dict_set_keeps_keys. }
  intros H. apply G. now left.
Qed.

Lemma init_allele_counts_nonneg (alt_alleles : list string) :
  Forall (fun kv => 0 <= snd kv) (init_allele_counts alt_alleles).
Proof.
  unfold init_allele_counts.
  assert (G : forall d : list (string * Z),
             Forall (fun kv => 0 <= snd kv) d ->
             Forall (fun kv => 0 <= snd kv)
               (fold_left (fun d allele => dict_set String.eqb d allele 0)
                  alt_alleles d)).
  { induction alt_alleles as [| x xs IH]; intros d Hd; cbn; [exact Hd |].
    apply IH. apply (dict_set_values (fun v => 0 <= v)); [exact Hd | lia]. }
  apply G. constructor.
Qed.

Lemma dict_incr_inv (keys : list string) (ref_count : Z) (d d' : list (string * Z))
    (k : string) :
  counting_inv keys (ref_count, d) -> dict_incr d k = Ok d' ->
  counting_inv keys (ref_count, d').
Proof.
  unfold dict_incr, counting_inv, counts_nonneg. cbn. intros [[Hr Hd] Hk] H.
  destruct (dict_get String.eqb d k) as [n |] eqn:Hg; [| discriminate].
  injection H as <-.
  destruct (dict_get_In _ _ _ Hg) as [k' Hin].
  rewrite Forall_forall in Hd. pose proof (Hd _ Hin) as Hn. cbn in Hn.
  repeat split.
  - exact Hr.
  - apply (dict_set_values (fun v => 0 <= v)); [now apply Forall_forall | lia].
  - erewrite dict_set_known_key; eassumption.
Qed.

Lemma count_sequence_inv (keys : list string) (ref : string) (st st' : counts)
    (seen : string) :
  counting_inv keys st -> count_sequence ref st seen = Ok st' -> counting_inv keys st'.
Proof.
  destruct st as [ref_count d]. unfold count_sequence. intros Hinv H.
  destruct (String.eqb seen ref).
  - injection H as <-. destruct Hinv as [[Hr Hd] Hk]. cbn in *.
    repeat split; cbn; [lia | assumption | assumption].
  - destruct (dict_get String.eqb d seen).
    + destruct (dict_incr d seen) as [d' |] eqn:Hi; cbn in H; [| discriminate].
      injection H as <-. eapply dict_incr_inv; eassumption.
    + now injection H as <-.
Qed.

Lemma count_indel_inv (keys : list string) (ref : string) (i : Z) (st st' : counts)
    (a : string) :
  counting_inv keys st -> count_indel ref i st a = Ok st' -> counting_inv keys st'.
Proof.
  destruct st as [ref_count d]. unfold count_indel. intros Hinv H.
  destruct (i =? str_len a - str_len ref).
  - destruct (dict_incr d a) as [d' |] eqn:Hi; cbn in H; [| discriminate].
    injection H as <-. eapply dict_incr_inv; eassumption.
  - destruct (i =? 0); injection H as <-; [| assumption].
    destruct Hinv as [[Hr Hd] Hk]. cbn in *.
    repeat split; cbn; [lia | assumption | assumption].
Qed.

Lemma count_read_inv (keys : list string) (ref : string) (alt_alleles : list string)
    (st st' : counts) (r : pileup_read) :
  counting_inv keys st -> count_read ref alt_alleles st r = Ok st' ->
  counting_inv keys st'.
Proof.
  unfold count_read. intros Hinv H.
  destruct (is_refskip r); cbn in H; [now injection H as <- |].
  destruct (py_max (map str_len alt_alleles)) as [alt_len |]; cbn in H;
    [| discriminate].
  destruct (str_len ref =? alt_len).
  - destruct (str_len ref =? 1); (destruct (is_del r); cbn in H;
      [now injection H as <- |]).
    + destruct (query_sequence r); cbn in H; [| discriminate].
      destruct (query_position r); cbn in H; [| discriminate].
      destruct (str_index _ _); cbn in H; [| discriminate].
      eapply count_sequence_inv; eassumption.
    + destruct (query_position r); cbn in H; [| discriminate].
      destruct (query_sequence r); cbn in H; [| discriminate].
      eapply count_sequence_inv; eassumption.
  - revert H. apply for_each_invariant; [| assumption].
    intros s x s'. apply count_indel_inv.
Qed.

(** After counting, no counter is below 0 and every alternate of the
    variant has its counter. *)
Lemma count_reads_inv (ref : string) (alt_alleles : list string)
    (pileup : list (list pileup_read)) (st : counts) :
  count_reads ref alt_alleles pileup = Ok st ->
  counts_nonneg st /\ forall a, In a alt_alleles -> In a (map fst (snd st)).
Proof.
  unfold count_reads. intros H.
  assert (Hinv : counting_inv (map fst (init_allele_counts alt_alleles)) st).
  { revert H. apply for_each_invariant.
    - intros s col s' Hs. apply for_each_invariant; [| assumption].
      intros s0 r s0'. apply count_read_inv.
    - repeat split; cbn; [lia | apply init_allele_counts_nonneg]. }
  destruct Hinv as [Hn Hk]. split; [assumption |].
  intros a Ha. rewrite Hk. now apply init_allele_counts_keys.
Qed.

(** X3. After counting, however the reads look, no counter is below 0,
    and neither is their total. *)
Theorem counters_never_negative (ref : string) (alt_alleles : list string)
    (pileup : list (list pileup_read)) (ref_count : Z)
    (allele_counts : list (string * Z)) :
  count_reads ref alt_alleles pileup = Ok (ref_count, allele_counts) ->
  0 <= ref_count /\
  Forall (fun kv => 0 <= snd kv) allele_counts /\
  0 <= total_count (ref_count, allele_counts).
Proof.
  intros H. apply count_reads_inv in H as [[Hr Hd] _]. cbn in Hr, Hd.
  repeat split; try assumption.
  unfold total_count, py_sum. cbn [fst snd].
  assert (G : forall l acc, Forall (fun x => 0 <= x) l -> 0 <= acc ->
                            0 <= fold_left Z.add l acc).
  { induction l as [| x l IH]; intros acc Hl Ha; cbn; [assumption |].
    inversion Hl; subst. apply IH; [assumption | lia]. }
  assert (0 <= fold_left Z.add (map snd allele_counts) 0).
  { apply G; [now apply Forall_map | lia]. }
  lia.
Qed.

Lemma counters_never_negative_witness :
  0 <= 2 /\
  Forall (fun kv : string * Z => 0 <= snd kv) [("AT", 0); ("ATT", 0)] /\
  0 <= total_count (2, [("AT", 0); ("ATT", 0)]).
Proof.
  apply (counters_never_negative "A" ["AT"; "ATT"] [[plain_read "A" 0]]).
  reflexivity.
Defined.

(** ** Properties of the score *)

Section Score.
Local Open Scope R_scope.
Variables p_se p_fp p_tp : R.

Lemma py_div_ok (x y : R) : y <> 0 -> py_div x y = Ok (x / y).
Proof.
  intros Hy. unfold py_div. destruct (Req_dec_T y 0); [contradiction | reflexivity].
Qed.

(** Without variant reads the allele fraction is 0. *)
Lemma vaf_no_variant_reads (total_count : Z) :
  exists vaf,
    (if (0 <? total_count)%Z then py_div (IZR 0) (IZR total_count) else Ok 0)
    = Ok vaf /\ vaf = 0.
Proof.
  destruct (Z.ltb_spec 0 total_count) as [HT | HT].
  - exists (0 / IZR total_count). split.
    + apply py_div_ok. apply not_0_IZR. lia.
    + unfold Rdiv. apply Rmult_0_l.
  - eauto.
Qed.

(** Without variant reads the score, when there is one, is [-inf]. *)
Lemma lod_of_no_variant_reads (total_count : Z) (l : lod_t) :
  lod_of p_se p_fp p_tp total_count 0 = Ok l -> l = NegInf.
Proof.
  unfold lod_of.
  destruct (vaf_no_variant_reads total_count) as (vaf & -> & ->). cbn.
  unfold py_div. destruct (Req_dec_T _ 0); cbn; [discriminate |].
  destruct (Rlt_dec 0 _) as [Hlt | _]; [| now intros [= <-]].
  exfalso. unfold Rdiv in Hlt. rewrite Rmult_0_r, Rmult_0_l in Hlt. lra.
Qed.

(** With a sequencing-error probability other than 0 there is one. *)
Lemma lod_of_no_variant_reads_ok (total_count : Z) :
  p_se <> 0 -> lod_of p_se p_fp p_tp total_count 0 = Ok NegInf.
Proof.
  intros Hse.
  destruct (lod_of p_se p_fp p_tp total_count 0) as [l | e] eqn:H.
  - now rewrite (lod_of_no_variant_reads _ _ H).
  - exfalso. unfold lod_of in H.
    destruct (vaf_no_variant_reads total_count) as (vaf & E & ->).
    rewrite E in H. cbn in H.
    rewrite py_div_ok in H; [discriminate |].
    replace ((1 - 0) * p_se + 0 * p_fp) with p_se by ring. exact Hse.
Qed.



End Score.


(** *** The same lines in binary64 *)








(** ** Properties of the scoring pass *)

Lemma fold_left_max_bounds (l : list Z) :
  forall x, x <= fold_left Z.max l x /\ Forall (fun y => y <= fold_left Z.max l x) l.
Proof.
  induction l as [| y l IH]; intros x; cbn.
  - split; [lia | constructor].
  - destruct (IH (Z.max x y)) as [Hx Hl]. split; [lia |].
    constructor; [lia | assumption].
Qed.

Lemma py_max_bound (l : list Z) (m : Z) :
  py_max l = Ok m -> Forall (fun y => y <= m) l.
Proof.
  destruct l as [| x l]; cbn; [discriminate |].
  intros [= <-]. destruct (fold_left_max_bounds l x). now constructor.
Qed.

Section Scoring.
Variable bam_file : alignment_file.
Variables p_se p_fp p_tp : R.

(** The rows of a variant, one for each key of [allele_counts]. *)
Lemma score_variant_rows (chrom0 : string) (pos0 : Z) (ref0 : string)
    (ref_count : Z) (allele_counts : list (string * Z)) (rows : list result_row) :
  score_variant p_se p_fp p_tp chrom0 pos0 ref0 (ref_count, allele_counts) = Ok rows ->
  Forall2
    (fun kv r =>
       exists l,
         lod_of p_se p_fp p_tp (ref_count + py_sum (map snd allele_counts)) (snd kv)
         = Ok l /\
         r = {| chrom := chrom0; pos := pos0; ref := ref0; alt := fst kv; lod := l;
                coverage := ref_count + py_sum (map snd allele_counts);
                num_variant_reads := snd kv |})
    allele_counts rows.
Proof.
  unfold score_variant. intros H. apply map_result_Forall2 in H.
  eapply Forall2_impl; [| exact H].
  intros [a c] r Hr. cbn in *.
  destruct (lod_of _ _ _ _ c) as [l |]; cbn in Hr; [| discriminate].
  injection Hr as <-. eauto.
Qed.

Lemma variant_evidence_counts (line chrom0 ref0 : string) (pos0 : Z) (st : counts) :
  variant_evidence bam_file line = Ok (chrom0, pos0, ref0, st) ->
  exists alt_alleles pileup, count_reads ref0 alt_alleles pileup = Ok st.
Proof.
  unfold variant_evidence. intros H.
  destruct (py_index _ 0) as [c |]; cbn in H; [| discriminate].
  destruct (py_index _ 1) as [f1 |]; cbn in H; [| discriminate].
  destruct (py_int f1) as [n |]; cbn in H; [| discriminate].
  destruct (py_index _ 3) as [r0 |]; cbn in H; [| discriminate].
  destruct (py_index _ 4) as [a |]; cbn in H; [| discriminate].
  destruct (count_reads _ _ _) as [st0 |] eqn:Hc; cbn in H; [| discriminate].
  injection H as <- <- <- <-. eauto.
Qed.

Lemma process_vcf_line_rows_ok (line : string) (rows : list result_row) :
  process_vcf_line bam_file p_se p_fp p_tp line = Ok rows -> Forall row_ok rows.
Proof.
  unfold process_vcf_line. intros H.
  destruct (variant_evidence bam_file line) as [[[[chrom0 pos0] ref0] st] |] eqn:He;
    cbn in H; [| discriminate].
  apply variant_evidence_counts in He as (alt_alleles & pileup & Hc).
  apply count_reads_inv in Hc as [[_ Hn] _].
  destruct st as [ref_count allele_counts]. cbn in Hn.
  apply score_variant_rows in H.
  eapply Forall2_Forall_r; [| exact H | exact Hn].
  intros kv r Hkv (l & Hl & ->). split; cbn; [assumption |].
  intros E. rewrite E in Hl. eapply lod_of_no_variant_reads; eassumption.
Qed.

Lemma process_vcf_chunk_rows_ok (chunk : list string) (rows : list result_row) :
  process_vcf_chunk bam_file p_se p_fp p_tp chunk = Ok rows -> Forall row_ok rows.
Proof.
  unfold process_vcf_chunk. apply for_each_invariant; [| constructor].
  intros results line results' Hr H.
  destruct (process_vcf_line bam_file p_se p_fp p_tp line) as [rows' |] eqn:Hl;
    cbn in H; [| discriminate].
  injection H as <-. apply Forall_app. split; [assumption |].
  eapply process_vcf_line_rows_ok; eassumption.
Qed.

Lemma chunks_rows_ok (chunks : list (list string)) (per_chunk : list (list result_row)) :
  map_result (process_vcf_chunk bam_file p_se p_fp p_tp) chunks = Ok per_chunk ->
  Forall row_ok (concat per_chunk).
Proof.
  intros H. apply map_result_Forall2 in H.
  induction H as [| c rows cs rss Hc _ IH]; cbn; [constructor |].
  apply Forall_app. split; [| assumption].
  eapply process_vcf_chunk_rows_ok; eassumption.
Qed.

End Scoring.

Section Classify.
Variables max_coverage max_num_variant_reads : Z.

Lemma score_ge_zero : score_ge (IntScore 0) 2.50 = false.
Proof. cbn. destruct (Rle_dec 2.50 0); [lra | reflexivity]. Qed.

(** Lines 196-198: no score, or at most one informative read. *)
Lemma classify_undetectable (r : result_row) :
  is_neg_inf (lod r) || (coverage r <=? 1) = true ->
  classify max_coverage max_num_variant_reads r
  = Ok {| d_chrom := chrom r; d_pos := pos r; d_ref := ref r; d_alt := alt r;
          d_score := IntScore 0; d_condition := "Non-detectable" |}.
Proof.
  intros H. unfold classify. rewrite H. cbn [bind].
  rewrite score_ge_zero. now destruct (_ && _).
Qed.

(** Lines 199-209: a score, and more than one informative read. *)
Lemma classify_scored (r : result_row) (x : R) :
  lod r = Finite x -> 1 < coverage r ->
  max_coverage <> 0 -> max_num_variant_reads <> 0 ->
  classify max_coverage max_num_variant_reads r
  = Ok {| d_chrom := chrom r; d_pos := pos r; d_ref := ref r; d_alt := alt r;
          d_score := FloatScore (Finite x);
          d_condition := if Rle_dec 2.50 x then "Detectable" else "Non-detectable" |}.
Proof.
  intros Hl Hc Hmc Hmn. unfold classify, int_div. rewrite Hl. cbn [is_neg_inf orb].
  destruct (Z.leb_spec (coverage r) 1); [lia |].
  destruct (Z.eqb_spec max_coverage 0); [contradiction |].
  destruct (Z.eqb_spec max_num_variant_reads 0); [contradiction |].
  cbn [bind score_ge]. destruct (Rle_dec 2.50 x); [reflexivity |].
  now destruct (_ && _).
Qed.

End Classify.

Lemma output_data_rows (results : list result_row)
    (detectability_results : list detectability_row) (vars : Z * Z) :
  Forall2
    (fun d o =>
       out_chrom o = d_chrom d /\ out_pos o = d_pos d /\
       out_ref o = d_ref d /\ out_alt o = d_alt d /\
       detectability_score o = d_score d /\
       detectability_condition o = d_condition d /\
       forall r, find (same_variant d) results = Some r ->
                 out_coverage o = coverage r /\
                 out_variant_reads o = num_variant_reads r)
    detectability_results (output_data results detectability_results vars).
Proof.
  unfold output_data.
  set (step := fun '(vars, out) d => _).
  assert (G : forall ds vars0 acc,
             exists rows,
               snd (fold_left step ds (vars0, acc)) = acc ++ rows /\
               Forall2
                 (fun d o =>
                    out_chrom o = d_chrom d /\ out_pos o = d_pos d /\
                    out_ref o = d_ref d /\ out_alt o = d_alt d /\
                    detectability_score o = d_score d /\
                    detectability_condition o = d_condition d /\
                    forall r, find (same_variant d) results = Some r ->
                              out_coverage o = coverage r /\
                              out_variant_reads o = num_variant_reads r)
                 ds rows).
  { induction ds as [| d ds IH]; intros vars0 acc; cbn [fold_left].
    - exists []. rewrite app_nil_r. split; [reflexivity | constructor].
    - unfold step at 2. cbn beta iota.
      match goal with
      | |- context [fold_left step ds (?v, acc ++ [?o])] =>
          destruct (IH v (acc ++ [o])) as (rows & E & F);
          exists (o :: rows)
      end.
      rewrite E, <- app_assoc. split; [reflexivity |].
      constructor; [| assumption]. cbn.
      repeat split; try reflexivity.
      + now rewrite H.
      + now rewrite H. }
  destruct (G detectability_results vars []) as (rows & E & F).
  rewrite E. exact F.
Qed.

(** A row that counting and scoring produced is classified without a
    fault, as the design document says. *)
Lemma classify_row_ok (max_coverage max_num_variant_reads : Z) (r : result_row) :
  row_ok r ->
  coverage r <= max_coverage ->
  num_variant_reads r <= max_num_variant_reads ->
  exists d,
    classify max_coverage max_num_variant_reads r = Ok d /\
    d_chrom d = chrom r /\ d_pos d = pos r /\ d_ref d = ref r /\ d_alt d = alt r /\
    scored_as_documented r (d_score d) (d_condition d).
Proof.
  intros [Hn Hz] Hc Hv. unfold scored_as_documented.
  destruct (lod r) as [| x] eqn:Hl.
  - eexists. split; [apply classify_undetectable; now rewrite Hl |]. cbn. auto 7.
  - destruct (Z.leb_spec (coverage r) 1) as [H1 | H1].
    + eexists. split.
      * apply classify_undetectable. rewrite Hl. cbn. now apply Z.leb_le.
      * cbn. auto 7.
    + assert (num_variant_reads r <> 0) by (intros E; apply Hz in E; discriminate).
      eexists. split; [apply (classify_scored _ _ r x); (assumption || lia) |].
      cbn. repeat split.
      destruct (Rle_dec 2.50 x); [left | right]; split; (reflexivity || lra).
Qed.

(** C6. For the rows that the workers return, the report is written
    without a fault and, pair by pair: with [lod = -inf] or a coverage of at
    most 1 the score is 0 and the label [Non-detectable]; otherwise the
    score is [lod] and the label is [Detectable] when [lod >= 2.50] and
    [Non-detectable] when [lod < 2.50]. *)
Theorem report_scores_as_documented (bam_file : alignment_file) (p_se p_fp p_tp : R)
    (chunks : list (list string)) (per_chunk : list (list result_row)) :
  map_result (process_vcf_chunk bam_file p_se p_fp p_tp) chunks = Ok per_chunk ->
  concat per_chunk <> [] ->
  exists out,
    report (concat per_chunk) = Ok out /\
    Forall2
      (fun r o =>
         same_pair r o /\
         scored_as_documented r (detectability_score o) (detectability_condition o))
      (concat per_chunk) out.
Proof.
  intros Hrun Hne. apply chunks_rows_ok in Hrun.
  set (results := concat per_chunk) in *. unfold report.
  destruct (py_max (map coverage results)) as [mc |] eqn:Hmc;
    [| destruct results; [contradiction | discriminate]].
  destruct (py_max (map num_variant_reads results)) as [mn |] eqn:Hmn;
    [| destruct results; [contradiction | discriminate]].
  apply py_max_bound in Hmc, Hmn. rewrite Forall_map in Hmc, Hmn. cbn [bind].
  assert (Hall : Forall (fun r => exists d, classify mc mn r = Ok d) results).
  { rewrite Forall_forall in *. intros r Hr.
    destruct (classify_row_ok mc mn r) as (d & Hd & _); eauto. }
  apply map_result_total in Hall as [drs Hdrs]. rewrite Hdrs. cbn [bind].
  eexists. split; [reflexivity |].
  apply map_result_Forall2 in Hdrs.
  assert (Hdrs' : Forall2 (fun r d => In r results /\ classify mc mn r = Ok d) results drs).
  { clear - Hdrs. induction Hdrs; constructor; [split; [now left | assumption] |].
    eapply Forall2_impl; [| eassumption]. cbn. intros a b [? ?]. split; [now right | assumption]. }
  eapply Forall2_impl;
    [| exact (Forall2_compose _ _ _ _ Hdrs' _ (output_data_rows results drs _))].
  cbn. intros r o (d & [Hin Hd] & Ho).
  rewrite Forall_forall in *.
  destruct (classify_row_ok mc mn r) as (d' & Hd' & Hid); eauto.
  rewrite Hd in Hd'. injection Hd' as <-.
  destruct Ho as (E1 & E2 & E3 & E4 & E5 & E6 & _).
  destruct Hid as (I1 & I2 & I3 & I4 & Hdoc).
  unfold same_pair. rewrite E1, E2, E3, E4, E5, E6. auto 6.
Qed.

Lemma sample_chunk_scored :
  map_result (process_vcf_chunk no_reads 0.0001 0.001 0.999) [[line_record_100]]
  = Ok [[{| chrom := "chr1"; pos := 100; ref := "A"; alt := "T"; lod := NegInf;
            coverage := 0; num_variant_reads := 0 |}]].
Proof.
  cbn [map_result]. unfold process_vcf_chunk. cbn [for_each].
  unfold process_vcf_line.
  replace (variant_evidence no_reads line_record_100)
    with (Ok ("chr1", 100, "A", (0, [("T", 0)]))) by reflexivity.
  cbn [bind]. unfold score_variant. cbn [map snd py_sum fold_left Z.add map_result].
  rewrite lod_of_no_variant_reads_ok by lra. reflexivity.
Qed.

Lemma report_scores_as_documented_witness :
  exists out,
    report (concat [[{| chrom := "chr1"; pos := 100; ref := "A"; alt := "T";
                        lod := NegInf; coverage := 0; num_variant_reads := 0 |}]])
    = Ok out /\
    Forall2
      (fun r o =>
         same_pair r o /\
         scored_as_documented r (detectability_score o) (detectability_condition o))
      (concat [[{| chrom := "chr1"; pos := 100; ref := "A"; alt := "T";
                   lod := NegInf; coverage := 0; num_variant_reads := 0 |}]])
      out.
Proof.
  apply (report_scores_as_documented no_reads 0.0001 0.001 0.999 [[line_record_100]]).
  - exact sample_chunk_scored.
  - discriminate.
Defined.

(** ** A variant without informative reads *)

Lemma same_variant_spec (d : detectability_row) (r : result_row) :
  same_variant d r = true <-> row_identity r = (d_chrom d, d_pos d, d_ref d, d_alt d).
Proof.
  unfold same_variant, row_identity.
  rewrite !andb_true_iff, !String.eqb_eq, Z.eqb_eq.
  split.
  - intros [[[-> ->] ->] ->]. reflexivity.
  - intros [= -> -> -> ->]. auto.
Qed.

(** With identities that are unique, the search of lines 225-233 finds
    the row itself. *)
Lemma find_same_variant_unique (d : detectability_row) (results : list result_row)
    (r : result_row) :
  In r results ->
  NoDup (map row_identity results) ->
  row_identity r = (d_chrom d, d_pos d, d_ref d, d_alt d) ->
  find (same_variant d) results = Some r.
Proof.
  intros Hin Hnd Hid. induction results as [| r0 rs IH]; [destruct Hin |].
  cbn in Hnd. inversion Hnd as [| ? ? Hnotin Hnd']; subst. cbn.
  destruct Hin as [-> | Hin].
  - apply same_variant_spec in Hid. now rewrite Hid.
  - destruct (same_variant d r0) eqn:E; [| auto].
    exfalso. apply same_variant_spec in E. apply Hnotin.
    rewrite E, <- Hid. now apply in_map.
Qed.

Lemma classify_identity (mc mn : Z) (r : result_row) (d : detectability_row) :
  classify mc mn r = Ok d ->
  (d_chrom d, d_pos d, d_ref d, d_alt d) = row_identity r.
Proof.
  unfold classify. intros H.
  destruct (if is_neg_inf (lod r) || (coverage r <=? 1) then _ else _); cbn in H;
    [| discriminate].
  now injection H as <-.
Qed.

(** What [report] writes, row by row. *)
Lemma report_rows (results : list result_row) (out : list output_row) :
  report results = Ok out ->
  exists mc mn,
    Forall2
      (fun r o =>
         exists d,
           classify mc mn r = Ok d /\
           output_identity o = row_identity r /\
           detectability_score o = d_score d /\
           detectability_condition o = d_condition d /\
           forall r', find (same_variant d) results = Some r' ->
                      out_coverage o = coverage r' /\
                      out_variant_reads o = num_variant_reads r')
      results out.
Proof.
  unfold report. intros H.
  destruct (py_max (map coverage results)) as [mc |]; cbn in H; [| discriminate].
  destruct (py_max (map num_variant_reads results)) as [mn |]; cbn in H;
    [| discriminate].
  destruct (map_result (classify mc mn) results) as [drs |] eqn:Hd; cbn in H;
    [| discriminate].
  injection H as <-. exists mc, mn.
  apply map_result_Forall2 in Hd.
  eapply Forall2_impl;
    [| exact (Forall2_compose _ _ _ _ Hd _ (output_data_rows results drs _))].
  cbn. intros r o (d & Hc & E1 & E2 & E3 & E4 & E5 & E6 & Hf).
  exists d. repeat split; try assumption.
  - unfold output_identity. rewrite E1, E2, E3, E4. now apply classify_identity in Hc.
  - now apply Hf.
  - now apply Hf.
Qed.

Lemma sum_zero_all_zero (l : list Z) :
  Forall (fun x => 0 <= x) l ->
  forall acc, 0 <= acc -> fold_left Z.add l acc = 0 ->
              acc = 0 /\ Forall (fun x => x = 0) l.
Proof.
  induction 1 as [| x l Hx _ IH]; intros acc Hacc H; cbn in H.
  - auto.
  - destruct (IH (acc + x) ltac:(lia) H) as [E F].
    split; [lia |]. constructor; [lia | assumption].
Qed.

(** With a total of 0, every counter is 0. *)
Lemma total_zero_counts (st : counts) :
  counts_nonneg st -> total_count st = 0 ->
  fst st = 0 /\ Forall (fun kv => snd kv = 0) (snd st).
Proof.
  destruct st as [ref_count d]. unfold counts_nonneg, total_count, py_sum. cbn.
  intros [Hr Hd] H.
  assert (Hs : 0 <= fold_left Z.add (map snd d) 0).
  { assert (G : forall l acc, Forall (fun x => 0 <= x) l -> 0 <= acc ->
                              0 <= fold_left Z.add l acc).
    { induction l as [| x l IH]; intros acc Hl Ha; cbn; [assumption |].
      inversion Hl; subst. apply IH; [assumption | lia]. }
    apply G; [| lia]. now apply Forall_map. }
  split; [lia |].
  assert (Hz : fold_left Z.add (map snd d) 0 = 0) by lia.
  apply sum_zero_all_zero in Hz as [_ Hz]; [| now apply Forall_map | lia].
  now apply Forall_map in Hz.
Qed.

Section Pipeline.
Variable bam_file : alignment_file.
Variables p_tp p_fp p_se : R.

(** A line whose variant can be read is kept by the main program. *)
Lemma variant_evidence_kept (line : string) (v : string * Z * string * counts) :
  startswith line "#" = false ->
  variant_evidence bam_file line = Ok v ->
  keep_vcf_line line = Ok true.
Proof.
  unfold variant_evidence, keep_vcf_line. intros -> H. cbn [negb].
  destruct (py_index _ 0); cbn in H; [| discriminate].
  destruct (py_index _ 1) as [f1 |]; cbn in H |- *; [| discriminate].
  destruct (py_int f1); [reflexivity | discriminate].
Qed.

Lemma read_vcf_lines_keeps (vcf_file vcf_lines : list string) (line : string) :
  read_vcf_lines vcf_file = Ok vcf_lines ->
  In line vcf_file -> keep_vcf_line line = Ok true ->
  In line vcf_lines.
Proof.
  unfold read_vcf_lines. intros H Hin Hkeep.
  assert (G : forall xs acc acc',
             for_each
               (fun vcf_lines l =>
                  keep <- keep_vcf_line l ;;
                  Ok (if keep then vcf_lines ++ [l] else vcf_lines)) xs acc
             = Ok acc' ->
             In line acc \/ In line xs -> In line acc').
  { induction xs as [| x xs IH]; intros acc acc' Hrun Hor; cbn in Hrun.
    - injection Hrun as <-. destruct Hor as [? | []]. assumption.
    - destruct (keep_vcf_line x) as [k |] eqn:Hk; cbn in Hrun; [| discriminate].
      apply (IH _ _ Hrun). destruct Hor as [Ha | [-> | Hx]].
      + left. destruct k; [apply in_or_app |]; auto.
      + left. rewrite Hkeep in Hk. injection Hk as <-.
        apply in_or_app. right. now left.
      + now right. }
  eapply G; [eassumption | now right].
Qed.

Lemma process_vcf_chunk_line (chunk : list string) (rows : list result_row)
    (line : string) :
  process_vcf_chunk bam_file p_se p_fp p_tp chunk = Ok rows ->
  In line chunk ->
  exists rows_l,
    process_vcf_line bam_file p_se p_fp p_tp line = Ok rows_l /\ incl rows_l rows.
Proof.
  unfold process_vcf_chunk.
  generalize (@nil result_row) as acc. revert rows.
  induction chunk as [| x xs IH]; intros rows acc H Hin; [destruct Hin |].
  cbn in H.
  destruct (process_vcf_line bam_file p_se p_fp p_tp x) as [rows_x |] eqn:Hx;
    cbn in H; [| discriminate].
  assert (Hacc : forall ys acc0 rows0,
             for_each
               (fun results l =>
                  rows <- process_vcf_line bam_file p_se p_fp p_tp l ;;
                  Ok (results ++ rows)) ys acc0 = Ok rows0 ->
             incl acc0 rows0).
  { induction ys as [| y ys IHy]; intros acc0 rows0 Hrun; cbn in Hrun.
    - injection Hrun as <-. apply incl_refl.
    - destruct (process_vcf_line bam_file p_se p_fp p_tp y); cbn in Hrun;
        [| discriminate].
      apply IHy in Hrun. intros z Hz. apply Hrun. apply in_or_app. now left. }
  destruct Hin as [-> | Hin].
  - exists rows_x. split; [assumption |].
    apply Hacc in H. intros z Hz. apply H. apply in_or_app. now right.
  - eapply IH; eassumption.
Qed.

Lemma chunks_line (chunks : list (list string)) (per_chunk : list (list result_row))
    (line : string) :
  map_result (process_vcf_chunk bam_file p_se p_fp p_tp) chunks = Ok per_chunk ->
  In line (concat chunks) ->
  exists rows_l,
    process_vcf_line bam_file p_se p_fp p_tp line = Ok rows_l /\
    incl rows_l (concat per_chunk).
Proof.
  intros H. apply map_result_Forall2 in H.
  induction H as [| c rows cs rss Hc _ IH]; cbn; intros Hin; [destruct Hin |].
  apply in_app_or in Hin as [Hin | Hin].
  - destruct (process_vcf_chunk_line _ _ _ Hc Hin) as (rows_l & Hl & Hincl).
    exists rows_l. split; [assumption |].
    intros z Hz. apply in_or_app. left. now apply Hincl.
  - destruct (IH Hin) as (rows_l & Hl & Hincl).
    exists rows_l. split; [assumption |].
    intros z Hz. apply in_or_app. right. now apply Hincl.
Qed.

(** The rows of a kept line are among the results that the main program
    reports. *)
Lemma scoring_pass_line (num_processes : Z) (vcf_file : list string)
    (out : list output_row) (line : string) (r : result_row)
    (rows_l : list result_row) :
  scoring_pass bam_file p_tp p_fp p_se num_processes vcf_file = Ok out ->
  In line vcf_file -> keep_vcf_line line = Ok true ->
  process_vcf_line bam_file p_se p_fp p_tp line = Ok rows_l ->
  In r rows_l ->
  exists results, In r results /\ report results = Ok out.
Proof.
  unfold scoring_pass. intros H Hin Hkeep Hl Hr.
  destruct (read_vcf_lines vcf_file) as [vcf_lines |] eqn:Hread; cbn [bind] in H;
    [| discriminate].
  pose proof (read_vcf_lines_keeps _ _ _ Hread Hin Hkeep) as Hline.
  cbv zeta in H.
  set (n := if 0 <? py_len vcf_lines then Z.min num_processes (py_len vcf_lines) else 1)
    in H.
  assert (Hcat : concat (chunkify vcf_lines n) = vcf_lines) by apply chunkify_concat.
  destruct (match vcf_lines with
            | [] => Ok []
            | _ :: _ =>
                if n <=? 0 then Raise ValueError
                else map_result (process_vcf_chunk bam_file p_se p_fp p_tp)
                       (chunkify vcf_lines n)
            end) as [per_chunk |] eqn:Hrun; cbn [bind] in H; [| discriminate].
  destruct vcf_lines as [| l0 ls]; [destruct Hline |].
  destruct (n <=? 0); [discriminate |].
  destruct (chunks_line _ _ line Hrun) as (rows_l' & Hl' & Hincl).
  { now rewrite Hcat. }
  rewrite Hl in Hl'. injection Hl' as <-.
  apply Hincl in Hr.
  destruct (concat per_chunk) as [| r0 rs] eqn:Hres; [destruct Hr |].
  exists (r0 :: rs). split; assumption.
Qed.

End Pipeline.

Section NoCoverage.
Variable bam_file : alignment_file.
Variables p_tp p_fp p_se : R.
Hypothesis p_se_not_zero : p_se <> 0%R.

(** The rows of a variant whose counters are all 0. *)
Lemma score_variant_no_coverage (chrom0 : string) (pos0 : Z) (ref0 : string)
    (st : counts) :
  counts_nonneg st -> total_count st = 0 ->
  score_variant p_se p_fp p_tp chrom0 pos0 ref0 st
  = Ok (map (fun kv =>
               {| chrom := chrom0; pos := pos0; ref := ref0; alt := fst kv;
                  lod := NegInf; coverage := 0; num_variant_reads := 0 |})
            (snd st)).
Proof.
  intros Hn Ht. destruct (total_zero_counts st Hn Ht) as [_ Hz].
  destruct st as [ref_count allele_counts]. unfold score_variant.
  unfold total_count in Ht. cbn [fst snd] in *. rewrite Ht.
  clear Hn Ht. induction Hz as [| [a c] kvs Hc _ IH]; [reflexivity |].
  cbn in Hc. subst c. cbn [map_result map fst].
  rewrite lod_of_no_variant_reads_ok by assumption. cbn [bind].
  rewrite IH. reflexivity.
Qed.

Lemma process_vcf_line_no_coverage (line chrom0 ref0 : string) (pos0 : Z)
    (st : counts) :
  variant_evidence bam_file line = Ok (chrom0, pos0, ref0, st) ->
  total_count st = 0 ->
  process_vcf_line bam_file p_se p_fp p_tp line
  = Ok (map (fun kv =>
               {| chrom := chrom0; pos := pos0; ref := ref0; alt := fst kv;
                  lod := NegInf; coverage := 0; num_variant_reads := 0 |})
            (snd st)).
Proof.
  intros He Ht. unfold process_vcf_line. rewrite He. cbn [bind].
  apply score_variant_no_coverage; [| assumption].
  apply variant_evidence_counts in He as (alt_alleles & pileup & Hc).
  now apply count_reads_inv in Hc.
Qed.

End NoCoverage.

Lemma report_identities (results : list result_row) (out : list output_row) :
  report results = Ok out -> map output_identity out = map row_identity results.
Proof.
  intros H. apply report_rows in H as (mc & mn & F).
  induction F as [| r o rs os (d & _ & E & _) _ IH]; [reflexivity |].
  cbn. now rewrite E, IH.
Qed.

(** C8. For a variant without informative reads the code can print the
    counts of another record. Here the second record ([A] to [T,TT], an
    indel site) has no informative read, and scoring it gives for [T] and
    for [TT] a result with [lod = -inf], coverage 0 and variant-read count
    0. But its row for [T] is written with coverage 1: the search of lines
    225-233, which is to get the counts "for this variant", stops at the
    first result of that identity, the one of the first record ([A] to
    [T]). *)
Theorem shared_identity_hides_zero_coverage :
  variant_evidence (one_read read_A_ins3) line_indel_A_T_TT
  = Ok ("chr1", 100, "A", (0, [("T", 0); ("TT", 0)]))
  /\ process_vcf_line (one_read read_A_ins3) 0.0001 0.001 0.999 line_indel_A_T_TT
     = Ok [{| chrom := "chr1"; pos := 100; ref := "A"; alt := "T"; lod := NegInf;
              coverage := 0; num_variant_reads := 0 |};
           {| chrom := "chr1"; pos := 100; ref := "A"; alt := "TT"; lod := NegInf;
              coverage := 0; num_variant_reads := 0 |}]
  /\ scoring_pass (one_read read_A_ins3) 0.999 0.001 0.0001 1
       [line_snv_A_T; line_indel_A_T_TT]
     = Ok [{| out_chrom := "chr1"; out_pos := 100; out_ref := "A"; out_alt := "T";
              detectability_score := IntScore 0;
              detectability_condition := "Non-detectable";
              out_coverage := 1; out_variant_reads := 0 |};
           {| out_chrom := "chr1"; out_pos := 100; out_ref := "A"; out_alt := "T";
              detectability_score := IntScore 0;
              detectability_condition := "Non-detectable";
              out_coverage := 1; out_variant_reads := 0 |};
           {| out_chrom := "chr1"; out_pos := 100; out_ref := "A"; out_alt := "TT";
              detectability_score := IntScore 0;
              detectability_condition := "Non-detectable";
              out_coverage := 0; out_variant_reads := 0 |}].
Proof.
  assert (Hse : (0.0001 <> 0)%R) by lra.
  split; [reflexivity |]. split.
  { rewrite (process_vcf_line_no_coverage (one_read read_A_ins3) 0.999 0.001
               0.0001 Hse line_indel_A_T_TT "chr1" "A" 100 (0, [("T", 0); ("TT", 0)]))
      by reflexivity.
    reflexivity. }
  unfold scoring_pass.
  replace (read_vcf_lines [line_snv_A_T; line_indel_A_T_TT])
    with (Ok [line_snv_A_T; line_indel_A_T_TT]) by reflexivity.
  cbn [bind]. cbv zeta.
  replace (chunkify [line_snv_A_T; line_indel_A_T_TT] _)
    with [[line_snv_A_T; line_indel_A_T_TT]] by reflexivity.
  replace (_ <=? 0) with false by reflexivity.
  cbn [map_result]. unfold process_vcf_chunk. cbn [for_each].
  rewrite (process_vcf_line_no_coverage (one_read read_A_ins3) 0.999 0.001
             0.0001 Hse line_indel_A_T_TT "chr1" "A" 100 (0, [("T", 0); ("TT", 0)]))
    by reflexivity.
  unfold process_vcf_line.
  replace (variant_evidence (one_read read_A_ins3) line_snv_A_T)
    with (Ok ("chr1", 100, "A", (1, [("T", 0)]))) by reflexivity.
  cbn [bind]. unfold score_variant.
  cbn [map snd fst py_sum fold_left Z.add map_result app concat].
  rewrite lod_of_no_variant_reads_ok by lra.
  cbn [bind app concat map fst snd]. unfold report.
  cbn [map coverage num_variant_reads py_max fold_left Z.max bind map_result].
  rewrite !classify_undetectable by reflexivity.
  reflexivity.
Qed.

(** Where the rows of a variant without informative reads are right.
    Let the sequencing-error probability be other than 0 and let a data
    record of the VCF have no informative read. Then scoring it raises
    nothing and gives one row for each alternate allele, with
    [lod = -inf], coverage 0 and variant-read count 0, which the
    classification turns into score 0 and [Non-detectable] without a
    fault. When the scoring pass completes, the table has for each
    alternate allele a row of that identity with score 0 and
    [Non-detectable]; the counts printed in it are those of the first
    result of that identity, so they are 0 when no two rows of the table
    share an identity tuple. *)
Lemma no_coverage_variant (bam_file : alignment_file) (p_tp p_fp p_se : R)
    (num_processes : Z) (vcf_file : list string) (line chrom0 ref0 : string)
    (pos0 : Z) (st : counts) :
  p_se <> 0%R ->
  In line vcf_file ->
  startswith line "#" = false ->
  variant_evidence bam_file line = Ok (chrom0, pos0, ref0, st) ->
  total_count st = 0 ->
  (exists rows,
     process_vcf_line bam_file p_se p_fp p_tp line = Ok rows /\
     map alt rows = map fst (snd st) /\
     Forall
       (fun r =>
          chrom r = chrom0 /\ pos r = pos0 /\ ref r = ref0 /\
          lod r = NegInf /\ coverage r = 0 /\ num_variant_reads r = 0 /\
          forall mc mn,
            classify mc mn r
            = Ok {| d_chrom := chrom0; d_pos := pos0; d_ref := ref0; d_alt := alt r;
                    d_score := IntScore 0; d_condition := "Non-detectable" |})
       rows) /\
  (forall out,
     scoring_pass bam_file p_tp p_fp p_se num_processes vcf_file = Ok out ->
     forall a, In a (map fst (snd st)) ->
     exists o,
       In o out /\
       output_identity o = (chrom0, pos0, ref0, a) /\
       detectability_score o = IntScore 0 /\
       detectability_condition o = "Non-detectable" /\
       (NoDup (map output_identity out) ->
        out_coverage o = 0 /\ out_variant_reads o = 0)).
Proof.
  intros Hse Hin Hh He Ht.
  pose proof (process_vcf_line_no_coverage bam_file p_tp p_fp p_se Hse
                line chrom0 ref0 pos0 st He Ht) as Hrows.
  split.
  - eexists. split; [exact Hrows |]. split.
    + rewrite map_map. reflexivity.
    + apply Forall_map, Forall_forall. intros kv _. cbv beta.
      repeat split. intros mc mn.
      now apply (classify_undetectable mc mn
                   {| chrom := chrom0; pos := pos0; ref := ref0; alt := fst kv;
                      lod := NegInf; coverage := 0; num_variant_reads := 0 |}).
  - intros out Hrun a Ha.
    apply in_map_iff in Ha as (kv & <- & Hkv).
    set (r := {| chrom := chrom0; pos := pos0; ref := ref0; alt := fst kv;
                 lod := NegInf; coverage := 0; num_variant_reads := 0 |}).
    assert (Hr : In r (map (fun kv =>
                              {| chrom := chrom0; pos := pos0; ref := ref0;
                                 alt := fst kv; lod := NegInf; coverage := 0;
                                 num_variant_reads := 0 |}) (snd st))).
    { apply in_map_iff. exists kv. split; [reflexivity | assumption]. }
    destruct (scoring_pass_line bam_file p_tp p_fp p_se num_processes vcf_file out
                line r _ Hrun Hin (variant_evidence_kept _ _ _ Hh He) Hrows Hr)
      as (results & Hres & Hrep).
    pose proof (report_identities _ _ Hrep) as Hids.
    apply report_rows in Hrep as (mc & mn & F).
    destruct (Forall2_In_l _ _ _ _ F Hres) as (o & Ho & d & Hd & Hid & Hs & Hc & Hf).
    rewrite (classify_undetectable mc mn r) in Hd by reflexivity.
    injection Hd as <-. cbn in Hs, Hc.
    exists o. split; [assumption |]. split; [exact Hid |].
    split; [assumption |]. split; [assumption |].
    intros Hnd. apply (Hf r).
    apply find_same_variant_unique; [assumption | | reflexivity].
    now rewrite <- Hids.
Qed.

(** ** Sites read by sequence: each read counts at most once *)

Lemma fold_left_add_shift (l : list Z) :
  forall a, fold_left Z.add l a = a + fold_left Z.add l 0.
Proof.
  induction l as [| x l IH]; intros a; cbn; [lia |].
  rewrite (IH (a + x)), (IH x). lia.
Qed.

Lemma py_sum_cons (x : Z) (l : list Z) : py_sum (x :: l) = x + py_sum l.
Proof. unfold py_sum. cbn. apply fold_left_add_shift. Qed.

Lemma dict_incr_sum (d d' : list (string * Z)) (k : string) :
  dict_incr d k = Ok d' -> py_sum (map snd d') = py_sum (map snd d) + 1.
Proof.
  unfold dict_incr.
  destruct (dict_get String.eqb d k) as [n |] eqn:Hg; [| discriminate].
  intros [= <-]. revert n Hg.
  induction d as [| [k' v'] d IH]; intros n Hg; cbn in Hg; [discriminate |].
  cbn [dict_set]. destruct (String.eqb k k').
  - injection Hg as ->. cbn [map snd]. rewrite !py_sum_cons. lia.
  - cbn [map snd]. rewrite !py_sum_cons, (IH n Hg). lia.
Qed.

Lemma count_sequence_once (ref : string) (st st' : counts) (seen : string) :
  count_sequence ref st seen = Ok st' ->
  (fst st' = fst st \/ fst st' = fst st + 1) /\
  (total_count st' = total_count st \/ total_count st' = total_count st + 1).
Proof.
  destruct st as [ref_count d]. unfold count_sequence, total_count. intros H.
  destruct (String.eqb seen ref).
  - injection H as <-. cbn [fst snd]. lia.
  - destruct (dict_get String.eqb d seen).
    + destruct (dict_incr d seen) as [d' |] eqn:Hi; cbn in H; [| discriminate].
      injection H as <-. cbn [fst snd]. rewrite (dict_incr_sum _ _ _ Hi). lia.
    + injection H as <-. lia.
Qed.

(** X1. At an SNV or MNV site (the reference as long as the longest
    alternate) one read raises the reference counter by at most one and
    the total by at most one. *)
Theorem sequence_site_counts_read_once (ref : string) (alt_alleles : list string)
    (st st' : counts) (r : pileup_read) :
  py_max (map str_len alt_alleles) = Ok (str_len ref) ->
  count_read ref alt_alleles st r = Ok st' ->
  (fst st' = fst st \/ fst st' = fst st + 1) /\
  (total_count st' = total_count st \/ total_count st' = total_count st + 1).
Proof.
  unfold count_read. intros Hmax H. rewrite Hmax in H. cbn [bind] in H.
  rewrite Z.eqb_refl in H.
  destruct (is_refskip r); cbn [negb] in H; [injection H as <-; lia |].
  destruct (str_len ref =? 1);
    (destruct (is_del r); cbn [negb] in H; [injection H as <-; lia |]).
  - destruct (query_sequence r); cbn in H; [| discriminate].
    destruct (query_position r); cbn in H; [| discriminate].
    destruct (str_index _ _); cbn in H; [| discriminate].
    eapply count_sequence_once; eassumption.
  - destruct (query_position r); cbn in H; [| discriminate].
    destruct (query_sequence r); cbn in H; [| discriminate].
    eapply count_sequence_once; eassumption.
Qed.

Lemma sequence_site_counts_read_once_witness :
  (fst (1, [("T", 0)]) = fst (0, [("T", 0)]) \/
   fst (1, [("T", 0)]) = fst (0, [("T", 0)]) + 1) /\
  (total_count (1, [("T", 0)]) = total_count (0, [("T", 0)]) \/
   total_count (1, [("T", 0)]) = total_count (0, [("T", 0)]) + 1).
Proof.
  apply (sequence_site_counts_read_once "A" ["T"] (0, [("T", 0)]) (1, [("T", 0)])
           read_A_ins3); reflexivity.
Defined.

(** ** The main program of the scoring pass *)

Lemma py_index_spec {A : Type} (l : list A) (i : Z) :
  0 <= i ->
  if i <? py_len l
  then exists x, py_index l i = Ok x /\ nth_error l (Z.to_nat i) = Some x
  else py_index l i = Raise IndexError.
Proof.
  intros Hi. unfold py_index.
  destruct (Z.ltb_spec i 0); [lia |].
  destruct (Z.ltb_spec i (py_len l)) as [Hlt | Hge].
  - destruct (Z.ltb_spec i 0); [lia |].
    destruct (Z.leb_spec (py_len l) i); [lia |]. cbn [orb].
    destruct (nth_error l (Z.to_nat i)) as [x |] eqn:Hn; [eauto |].
    apply nth_error_None in Hn. unfold py_len in Hlt. lia.
  - destruct (Z.ltb_spec i 0); [lia |].
    destruct (Z.leb_spec (py_len l) i); [reflexivity | lia].
Qed.

Lemma py_int_raises (s : string) (e : exn) : py_int s = Raise e -> e = ValueError.
Proof.
  unfold py_int. destruct (match _ with [] => _ | _ => _ end); [discriminate |].
  now intros [= <-].
Qed.

Lemma keep_vcf_line_spec (line : string) :
  keep_vcf_line line
  = if has_pos_field line then Ok (qualifies line) else Raise IndexError.
Proof.
  unfold keep_vcf_line, has_pos_field, qualifies.
  destruct (startswith line "#"); [reflexivity |]. cbn [negb orb andb].
  pose proof (py_index_spec (split_on tab (strip line)) 1 ltac:(lia)) as H.
  destruct (Z.ltb_spec 1 (py_len (split_on tab (strip line)))) as [Hlt | Hge].
  - destruct H as (f1 & -> & _). cbn [bind].
    destruct (Z.leb_spec 2 (py_len (split_on tab (strip line)))); [| lia].
    destruct (py_int f1) as [n | e] eqn:Hint; [reflexivity |].
    now rewrite (py_int_raises _ _ Hint).
  - rewrite H. cbn [bind].
    destruct (Z.leb_spec 2 (py_len (split_on tab (strip line)))); [lia | reflexivity].
Qed.

(** The variant list as a filter of the input. *)
Lemma read_vcf_lines_filter (vcf_file : list string) :
  read_vcf_lines vcf_file
  = if forallb has_pos_field vcf_file
    then Ok (filter qualifies vcf_file)
    else Raise IndexError.
Proof.
  unfold read_vcf_lines.
  assert (G : forall xs acc,
             for_each
               (fun vcf_lines line =>
                  keep <- keep_vcf_line line ;;
                  Ok (if keep then vcf_lines ++ [line] else vcf_lines)) xs acc
             = if forallb has_pos_field xs
               then Ok (acc ++ filter qualifies xs)
               else Raise IndexError).
  { induction xs as [| x xs IH]; intros acc; cbn [for_each forallb filter].
    - now rewrite app_nil_r.
    - rewrite keep_vcf_line_spec.
      destruct (has_pos_field x); cbn [bind andb]; [| reflexivity].
      rewrite IH. destruct (forallb has_pos_field xs); [| reflexivity].
      destruct (qualifies x); [| reflexivity].
      now rewrite <- app_assoc. }
  apply G.
Qed.

(** X4. Reading the VCF for scoring: when every line that is no header
    has at least two tab-separated fields, the variant list is the input
    with exactly the qualifying lines kept, in their order; otherwise
    (a blank line, say) the run ends with [IndexError], which the
    [except ValueError] of lines 153-157 does not catch. *)
Theorem read_vcf_lines_spec (vcf_file : list string) :
  read_vcf_lines vcf_file
  = if forallb has_pos_field vcf_file
    then Ok (filter qualifies vcf_file)
    else Raise IndexError.
Proof. exact (read_vcf_lines_filter vcf_file). Qed.

Section Workers.
Variable bam_file : alignment_file.
Variables p_tp p_fp p_se : R.

Lemma process_vcf_chunk_from (chunk : list string) (acc : list result_row) :
  for_each
    (fun results line =>
       rows <- process_vcf_line bam_file p_se p_fp p_tp line ;;
       Ok (results ++ rows)) chunk acc
  = (rows <- process_vcf_chunk bam_file p_se p_fp p_tp chunk ;; Ok (acc ++ rows)).
Proof.
  unfold process_vcf_chunk. revert acc.
  induction chunk as [| x xs IH]; intros acc; cbn [for_each bind].
  - now rewrite app_nil_r.
  - destruct (process_vcf_line bam_file p_se p_fp p_tp x) as [rows |]; cbn [bind];
      [| reflexivity].
    rewrite (IH (acc ++ rows)), (IH ([] ++ rows)).
    destruct (for_each _ xs []); cbn [bind]; [| reflexivity].
    now rewrite app_assoc.
Qed.

Lemma process_vcf_chunk_app (a b : list string) :
  process_vcf_chunk bam_file p_se p_fp p_tp (a ++ b)
  = (ra <- process_vcf_chunk bam_file p_se p_fp p_tp a ;;
     rb <- process_vcf_chunk bam_file p_se p_fp p_tp b ;;
     Ok (ra ++ rb)).
Proof.
  unfold process_vcf_chunk at 1. rewrite for_each_app.
  fold (process_vcf_chunk bam_file p_se p_fp p_tp a).
  destruct (process_vcf_chunk bam_file p_se p_fp p_tp a) as [ra |]; cbn [bind];
    [| reflexivity].
  apply process_vcf_chunk_from.
Qed.

(** The workers' results, concatenated in the order of the chunks, are
    what one worker gives on the whole list, errors included. *)
Lemma chunks_concat (chunks : list (list string)) :
  (per_chunk <- map_result (process_vcf_chunk bam_file p_se p_fp p_tp) chunks ;;
   Ok (concat per_chunk))
  = process_vcf_chunk bam_file p_se p_fp p_tp (concat chunks).
Proof.
  induction chunks as [| c cs IH]; cbn [map_result concat bind]; [reflexivity |].
  rewrite process_vcf_chunk_app, <- IH.
  destruct (process_vcf_chunk bam_file p_se p_fp p_tp c); cbn [bind]; [| reflexivity].
  destruct (map_result _ cs); reflexivity.
Qed.

(** The main program with the worker pool folded away. *)
Lemma scoring_pass_unfold (num_processes : Z) (vcf_file : list string) :
  scoring_pass bam_file p_tp p_fp p_se num_processes vcf_file
  = (vcf_lines <- read_vcf_lines vcf_file ;;
     match vcf_lines with
     | [] => Ok []
     | _ :: _ =>
         if Z.min num_processes (py_len vcf_lines) <=? 0 then Raise ValueError
         else
           results <- process_vcf_chunk bam_file p_se p_fp p_tp vcf_lines ;;
           match results with
           | [] => Ok []
           | _ :: _ => report results
           end
     end).
Proof.
  unfold scoring_pass.
  destruct (read_vcf_lines vcf_file) as [vcf_lines |]; cbn [bind]; [| reflexivity].
  cbv zeta. destruct vcf_lines as [| l ls]; [reflexivity |].
  set (vcf_lines := l :: ls).
  assert (Hlen : (0 <? py_len vcf_lines) = true).
  { apply Z.ltb_lt. unfold py_len, vcf_lines. cbn [length]. lia. }
  rewrite Hlen.
  destruct (Z.min num_processes (py_len vcf_lines) <=? 0); [reflexivity |].
  pose proof (chunks_concat
                (chunkify vcf_lines (Z.min num_processes (py_len vcf_lines)))) as E.
  rewrite chunkify_concat in E. rewrite <- E.
  destruct (map_result _ _); reflexivity.
Qed.

End Workers.

(** X5. The report does not depend on the number of workers: any two
    positive worker counts give the same result, errors included. *)
Theorem scoring_pass_any_worker_count (bam_file : alignment_file) (p_tp p_fp p_se : R)
    (n1 n2 : Z) (vcf_file : list string) :
  0 < n1 -> 0 < n2 ->
  scoring_pass bam_file p_tp p_fp p_se n1 vcf_file
  = scoring_pass bam_file p_tp p_fp p_se n2 vcf_file.
Proof.
  intros H1 H2. rewrite !scoring_pass_unfold.
  destruct (read_vcf_lines vcf_file) as [vcf_lines |]; cbn [bind]; [| reflexivity].
  destruct vcf_lines as [| l ls]; [reflexivity |].
  assert (Hlen : 0 < py_len (l :: ls)) by (unfold py_len; cbn [length]; lia).
  destruct (Z.leb_spec (Z.min n1 (py_len (l :: ls))) 0); [lia |].
  destruct (Z.leb_spec (Z.min n2 (py_len (l :: ls))) 0); [lia |].
  reflexivity.
Qed.

Lemma scoring_pass_any_worker_count_witness :
  scoring_pass no_reads 0.999 0.001 0.0001 1
    [line_chrom; line_record_100; line_record_200]
  = scoring_pass no_reads 0.999 0.001 0.0001 8
      [line_chrom; line_record_100; line_record_200].
Proof.
  apply (scoring_pass_any_worker_count no_reads 0.999 0.001 0.0001 1 8); lia.
Defined.

(** X6. A VCF without a qualifying line gives the header-only report,
    whatever the evidence source, the probabilities and the requested
    number of workers (zero and negative numbers included). *)
Theorem scoring_pass_no_variants (bam_file : alignment_file) (p_tp p_fp p_se : R)
    (num_processes : Z) (vcf_file : list string) :
  forallb has_pos_field vcf_file = true ->
  filter qualifies vcf_file = [] ->
  scoring_pass bam_file p_tp p_fp p_se num_processes vcf_file = Ok [].
Proof.
  intros Hf Hq. rewrite scoring_pass_unfold, read_vcf_lines_filter, Hf, Hq.
  reflexivity.
Qed.

Lemma scoring_pass_no_variants_witness :
  scoring_pass (one_read read_A_ins3) 0.999 0.001 0.0001 0
    [line_fileformat; line_info_dp; line_chrom; line_record_bad_pos]
  = Ok [].
Proof.
  apply (scoring_pass_no_variants (one_read read_A_ins3) 0.999 0.001 0.0001 0
           [line_fileformat; line_info_dp; line_chrom; line_record_bad_pos]);
    reflexivity.
Defined.



(** ** The rows of the report *)

Lemma Forall2_In_r {A B : Type} (R : A -> B -> Prop) (xs : list A) (ys : list B) (y : B) :
  Forall2 R xs ys -> In y ys -> exists x, In x xs /\ R x y.
Proof.
  induction 1 as [| x0 y0 xs ys Hxy _ IH]; intros Hin; [destruct Hin |].
  destruct Hin as [-> | Hin].
  - exists x0. split; [now left | assumption].
  - destruct (IH Hin) as (x & Hx & HR). exists x. split; [now right | assumption].
Qed.

Lemma py_sum_bounds (l : list Z) (x : Z) :
  Forall (fun y => 0 <= y) l -> In x l -> x <= py_sum l.
Proof.
  induction 1 as [| y l Hy Hl IH]; intros Hin; [destruct Hin |].
  rewrite py_sum_cons.
  assert (0 <= py_sum l).
  { clear - Hl. induction Hl as [| z l Hz _ IH]; [unfold py_sum; cbn; lia |].
    rewrite py_sum_cons. lia. }
  destruct Hin as [-> | Hin]; [lia |]. specialize (IH Hin). lia.
Qed.

Lemma split_where_nonempty (sep : ascii -> bool) (s : string) :
  split_where sep s <> [].
Proof.
  destruct s as [| c s]; cbn; [discriminate |].
  destruct (sep c); [discriminate |]. destruct (split_where sep s); discriminate.
Qed.

(** No piece of [s.split(c)] holds a [c]. *)
Lemma split_on_no_sep (c : ascii) (s : string) :
  Forall (fun w => has_char c w = false) (split_on c s).
Proof.
  unfold split_on. induction s as [| x s IH]; cbn [split_where].
  - repeat constructor.
  - destruct (Ascii.eqb c x) eqn:E.
    + constructor; [reflexivity | assumption].
    + destruct (split_where (Ascii.eqb c) s) as [| w ws].
      * repeat constructor. cbn. now rewrite E.
      * inversion IH; subst. constructor; [| assumption].
        cbn. now rewrite E.
Qed.

Section DictKeys.
Context {V : Type}.
Implicit Types (d : list (string * V)) (k : string) (v : V).

Lemma dict_set_keys_iff d k v k0 :
  In k0 (map fst (dict_set String.eqb d k v)) <-> k0 = k \/ In k0 (map fst d).
Proof.
  induction d as [| [k' v'] d IH]; cbn.
  - intuition congruence.
  - destruct (String.eqb_spec k k') as [-> | Hne]; cbn.
    + intuition congruence.
    + rewrite IH. intuition congruence.
Qed.

Lemma dict_set_keys_NoDup d k v :
  NoDup (map fst d) -> NoDup (map fst (dict_set String.eqb d k v)).
Proof.
  induction d as [| [k' v'] d IH]; cbn; intros Hnd.
  - repeat constructor. intros [].
  - inversion Hnd as [| ? ? Hnotin Hnd']; subst.
    destruct (String.eqb_spec k k') as [-> | Hne]; cbn.
    + now constructor.
    + constructor; [| now apply IH].
      rewrite dict_set_keys_iff. intros [E | Hin]; [congruence | contradiction].
Qed.

End DictKeys.

(** [{allele: 0 for allele in alt_alleles}] has one key for each distinct
    alternate. *)
Lemma init_allele_counts_distinct (alt_alleles : list string) :
  NoDup (map fst (init_allele_counts alt_alleles)) /\
  forall a, In a (map fst (init_allele_counts alt_alleles)) <-> In a alt_alleles.
Proof.
  unfold init_allele_counts.
  assert (G : forall (d : list (string * Z)),
             NoDup (map fst d) ->
             NoDup (map fst (fold_left
                               (fun d allele => dict_set String.eqb d allele 0)
                               alt_alleles d)) /\
             forall a,
               In a (map fst (fold_left
                                (fun d allele => dict_set String.eqb d allele 0)
                                alt_alleles d))
               <-> In a alt_alleles \/ In a (map fst d)).
  { induction alt_alleles as [| x xs IH]; intros d Hd; cbn [fold_left].
    - split; [assumption |]. cbn. tauto.
    - destruct (IH (dict_set String.eqb d x 0)) as [Hn Hi];
        [now apply dict_set_keys_NoDup |].
      split; [assumption |]. intros a. rewrite Hi, dict_set_keys_iff. cbn.
      intuition congruence. }
  destruct (G [] ltac:(constructor)) as [Hn Hi].
  split; [assumption |]. intros a. rewrite Hi. cbn. tauto.
Qed.

(** Counting leaves the keys of [allele_counts] as they were made. *)
Lemma count_reads_keys (ref : string) (alt_alleles : list string)
    (pileup : list (list pileup_read)) (st : counts) :
  count_reads ref alt_alleles pileup = Ok st ->
  map fst (snd st) = map fst (init_allele_counts alt_alleles).
Proof.
  unfold count_reads. intros H.
  assert (Hinv : counting_inv (map fst (init_allele_counts alt_alleles)) st).
  { revert H. apply for_each_invariant.
    - intros s col s' Hs. apply for_each_invariant; [| assumption].
      intros s0 r s0'. apply count_read_inv.
    - repeat split; cbn; [lia | apply init_allele_counts_nonneg]. }
  now destruct Hinv.
Qed.

Section Rows.
Variable bam_file : alignment_file.
Variables p_tp p_fp p_se : R.

Lemma variant_evidence_fields (line chrom0 ref0 : string) (pos0 : Z) (st : counts) :
  variant_evidence bam_file line = Ok (chrom0, pos0, ref0, st) ->
  exists alt_field,
    py_index (split_on tab (strip line)) 4 = Ok alt_field /\
    count_reads ref0 (split_on ","%char alt_field) (bam_file chrom0 (pos0 - 1) pos0)
    = Ok st.
Proof.
  unfold variant_evidence. intros H.
  destruct (py_index _ 0) as [c |]; cbn in H; [| discriminate].
  destruct (py_index _ 1) as [f1 |]; cbn in H; [| discriminate].
  destruct (py_int f1) as [n |]; cbn in H; [| discriminate].
  destruct (py_index _ 3) as [r0 |]; cbn in H; [| discriminate].
  destruct (py_index _ 4) as [a |]; cbn in H; [| discriminate].
  destruct (count_reads _ _ _) as [st0 |] eqn:Hc; cbn in H; [| discriminate].
  injection H as <- <- <- <-. eauto.
Qed.

(** What holds of the rows of every line holds of the rows of a chunk. *)
Lemma process_vcf_chunk_Forall (P : result_row -> Prop) (chunk : list string)
    (rows : list result_row) :
  (forall line rows_l,
     process_vcf_line bam_file p_se p_fp p_tp line = Ok rows_l -> Forall P rows_l) ->
  process_vcf_chunk bam_file p_se p_fp p_tp chunk = Ok rows -> Forall P rows.
Proof.
  intros HP. unfold process_vcf_chunk. apply for_each_invariant; [| constructor].
  intros results line results' Hr H.
  destruct (process_vcf_line bam_file p_se p_fp p_tp line) as [rows' |] eqn:Hl;
    cbn in H; [| discriminate].
  injection H as <-. apply Forall_app. split; [assumption | eauto].
Qed.

(** The rows of a line: one for each distinct alternate of its ALT field,
    all with the chromosome, position, reference and coverage of the
    variant. *)
Lemma process_vcf_line_rows (line : string) (rows : list result_row) :
  process_vcf_line bam_file p_se p_fp p_tp line = Ok rows ->
  exists chrom0 pos0 ref0 alt_field st,
    variant_evidence bam_file line = Ok (chrom0, pos0, ref0, st) /\
    py_index (split_on tab (strip line)) 4 = Ok alt_field /\
    counts_nonneg st /\
    map alt rows = map fst (snd st) /\
    NoDup (map alt rows) /\
    (forall a, In a (map alt rows) <-> In a (split_on ","%char alt_field)) /\
    Forall2
      (fun kv r =>
         chrom r = chrom0 /\ pos r = pos0 /\ ref r = ref0 /\ alt r = fst kv /\
         coverage r = total_count st /\ num_variant_reads r = snd kv)
      (snd st) rows.
Proof.
  unfold process_vcf_line. intros H.
  destruct (variant_evidence bam_file line) as [[[[chrom0 pos0] ref0] st] |] eqn:He;
    cbn [bind] in H; [| discriminate].
  destruct (variant_evidence_fields _ _ _ _ _ He) as (alt_field & Hf & Hc).
  pose proof (count_reads_keys _ _ _ _ Hc) as Hk.
  destruct (init_allele_counts_distinct (split_on ","%char alt_field)) as [Hn Hi].
  pose proof (count_reads_inv _ _ _ _ Hc) as [Hnn _].
  destruct st as [ref_count allele_counts].
  apply score_variant_rows in H.
  assert (Hrows : Forall2
                    (fun kv r =>
                       chrom r = chrom0 /\ pos r = pos0 /\ ref r = ref0 /\
                       alt r = fst kv /\
                       coverage r = total_count (ref_count, allele_counts) /\
                       num_variant_reads r = snd kv)
                    allele_counts rows).
  { eapply Forall2_impl; [| exact H]. cbn beta.
    intros kv r (l & _ & ->). cbn. unfold total_count. cbn. auto 6. }
  assert (Halt : map alt rows = map fst allele_counts).
  { clear - Hrows. induction Hrows as [| kv r kvs rs (_ & _ & _ & E & _) _ IH];
      [reflexivity |]. cbn. now rewrite E, IH. }
  exists chrom0, pos0, ref0, alt_field, (ref_count, allele_counts).
  cbn [snd] in *. rewrite Halt, Hk.
  repeat split; try assumption; try apply Hnn; apply Hi.
Qed.

Lemma process_vcf_line_bounded (line : string) (rows : list result_row) :
  process_vcf_line bam_file p_se p_fp p_tp line = Ok rows -> Forall row_bounded rows.
Proof.
  intros H.
  destruct (process_vcf_line_rows _ _ H)
    as (chrom0 & pos0 & ref0 & alt_field & st & _ & _ & [Hr Hd] & _ & _ & _ & F).
  assert (Hself : Forall (fun kv => In kv (snd st)) (snd st)).
  { apply Forall_forall. intros kv Hkv. exact Hkv. }
  eapply Forall2_Forall_r; [| exact F | exact Hself].
  cbn beta. intros kv r Hin (_ & _ & _ & _ & Hc & Hv). unfold row_bounded.
  rewrite Hc, Hv. unfold total_count.
  rewrite Forall_forall in Hd. pose proof (Hd kv Hin) as Hkv.
  assert (snd kv <= py_sum (map snd (snd st))).
  { apply py_sum_bounds; [| now apply in_map].
    apply Forall_map. now apply Forall_forall. }
  lia.
Qed.

Lemma process_vcf_line_no_comma (line : string) (rows : list result_row) :
  process_vcf_line bam_file p_se p_fp p_tp line = Ok rows ->
  Forall (fun r => has_char ","%char (alt r) = false) rows.
Proof.
  intros H.
  destruct (process_vcf_line_rows _ _ H)
    as (chrom0 & pos0 & ref0 & alt_field & st & _ & _ & _ & _ & _ & Hi & _).
  apply Forall_forall. intros r Hr.
  pose proof (split_on_no_sep ","%char alt_field) as Hs.
  rewrite Forall_forall in Hs. apply Hs, Hi. now apply in_map.
Qed.

(** What the main program hands to [report]. *)
Lemma scoring_pass_results (num_processes : Z) (vcf_file : list string)
    (out : list output_row) :
  scoring_pass bam_file p_tp p_fp p_se num_processes vcf_file = Ok out ->
  out = [] \/
  exists results,
    process_vcf_chunk bam_file p_se p_fp p_tp (filter qualifies vcf_file) = Ok results /\
    report results = Ok out.
Proof.
  rewrite scoring_pass_unfold, read_vcf_lines_filter.
  destruct (forallb has_pos_field vcf_file); cbn [bind]; [| discriminate].
  destruct (filter qualifies vcf_file) as [| l ls]; [intros [= <-]; now left |].
  destruct (_ <=? 0); [discriminate |].
  destruct (process_vcf_chunk bam_file p_se p_fp p_tp (l :: ls)) as [results |];
    cbn [bind]; [| discriminate].
  destruct results as [| r rs]; [intros [= <-]; now left |].
  intros H. right. eauto.
Qed.

End Rows.

(** Each row of the report is about one result, and shows the coverage
    and the variant-read count of a result of the same identity. *)
Lemma report_out_rows (results : list result_row) (out : list output_row) :
  report results = Ok out ->
  Forall
    (fun o =>
       exists r r',
         In r results /\ In r' results /\
         output_identity o = row_identity r /\
         row_identity r' = row_identity r /\
         out_coverage o = coverage r' /\
         out_variant_reads o = num_variant_reads r')
    out.
Proof.
  intros H. apply report_rows in H as (mc & mn & F).
  apply Forall_forall. intros o Ho.
  destruct (Forall2_In_r _ _ _ _ F Ho) as (r & Hr & d & Hd & Hid & _ & _ & Hf).
  pose proof (classify_identity _ _ _ _ Hd) as Hdr.
  destruct (find (same_variant d) results) as [r' |] eqn:Hfind.
  - destruct (find_some _ _ Hfind) as [Hin Hs].
    apply same_variant_spec in Hs.
    destruct (Hf r' eq_refl) as [Hc Hv].
    exists r, r'. repeat split; try assumption. congruence.
  - exfalso. pose proof (find_none _ _ Hfind r Hr) as Hn.
    assert (same_variant d r = true) by (apply same_variant_spec; congruence).
    congruence.
Qed.

(** X8. In every row of the report the variant-read count lies between 0
    and the coverage. *)
Theorem report_counts_bounded (bam_file : alignment_file) (p_tp p_fp p_se : R)
    (num_processes : Z) (vcf_file : list string) (out : list output_row) :
  scoring_pass bam_file p_tp p_fp p_se num_processes vcf_file = Ok out ->
  Forall (fun o => 0 <= out_variant_reads o <= out_coverage o) out.
Proof.
  intros H. apply scoring_pass_results in H as [-> | (results & Hres & Hrep)];
    [constructor |].
  assert (Hb : Forall row_bounded results).
  { eapply process_vcf_chunk_Forall; [| exact Hres].
    intros line rows. apply process_vcf_line_bounded. }
  apply report_out_rows in Hrep. rewrite Forall_forall in *.
  intros o Ho. destruct (Hrep o Ho) as (r & r' & _ & Hr' & _ & _ & -> & ->).
  apply (Hb r' Hr').
Qed.

(** X9. The report has one allele per row: no alternate of a row holds a
    comma, so the ALT field of a multi-allelic record is never the
    alternate of a row. *)
Theorem report_one_allele_per_row (bam_file : alignment_file) (p_tp p_fp p_se : R)
    (num_processes : Z) (vcf_file : list string) (out : list output_row) :
  scoring_pass bam_file p_tp p_fp p_se num_processes vcf_file = Ok out ->
  Forall (fun o => has_char ","%char (out_alt o) = false) out.
Proof.
  intros H. apply scoring_pass_results in H as [-> | (results & Hres & Hrep)];
    [constructor |].
  assert (Hb : Forall (fun r => has_char ","%char (alt r) = false) results).
  { eapply process_vcf_chunk_Forall; [| exact Hres].
    intros line rows. apply process_vcf_line_no_comma. }
  apply report_out_rows in Hrep. rewrite Forall_forall in *.
  intros o Ho. destruct (Hrep o Ho) as (r & r' & Hr & _ & Hid & _).
  unfold output_identity, row_identity in Hid. injection Hid as _ _ _ ->.
  apply (Hb r Hr).
Qed.

(** X10. A line gives one row for each distinct alternate of its ALT
    field (a repeated alternate gives one row), and all its rows carry the
    same chromosome, position, reference and coverage. *)
Theorem one_row_per_distinct_alternate (bam_file : alignment_file) (p_tp p_fp p_se : R)
    (line : string) (rows : list result_row) :
  process_vcf_line bam_file p_se p_fp p_tp line = Ok rows ->
  exists alt_field,
    py_index (split_on tab (strip line)) 4 = Ok alt_field /\
    NoDup (map alt rows) /\
    (forall a, In a (map alt rows) <-> In a (split_on ","%char alt_field)) /\
    forall r1 r2, In r1 rows -> In r2 rows ->
      chrom r1 = chrom r2 /\ pos r1 = pos r2 /\ ref r1 = ref r2 /\
      coverage r1 = coverage r2.
Proof.
  intros H.
  destruct (process_vcf_line_rows _ _ _ _ _ _ H)
    as (chrom0 & pos0 & ref0 & alt_field & st & _ & Hf & _ & _ & Hn & Hi & F).
  exists alt_field. repeat split; try assumption; try apply Hi;
    destruct (Forall2_In_r _ _ _ _ F H0) as (kv1 & _ & E1 & E2 & E3 & _ & E5 & _);
    destruct (Forall2_In_r _ _ _ _ F H1) as (kv2 & _ & G1 & G2 & G3 & _ & G5 & _);
    congruence.
Qed.

(** ** The score of given counts, in exact arithmetic *)

Section Threshold.
Local Open Scope R_scope.

Lemma ln_le_iff (a b : R) : 0 < a -> 0 < b -> (ln a <= ln b <-> a <= b).
Proof.
  intros Ha Hb. split; intros H.
  - destruct (Rle_lt_dec a b) as [Hle | Hlt]; [assumption |].
    pose proof (ln_increasing b a Hb Hlt). lra.
  - destruct H as [Hlt | ->]; [| lra].
    pose proof (ln_increasing a b Ha Hlt). lra.
Qed.

Lemma ln_10_pos : 0 < ln 10.
Proof. rewrite <- ln_1. apply ln_increasing; lra. Qed.

(** [log10 x >= 2.50] exactly when [x * x >= 100000]. *)
Lemma log10_threshold (x : R) : 0 < x -> (2.50 <= log10 x <-> 100000 <= x * x).
Proof.
  intros Hx. pose proof ln_10_pos as H10.
  assert (Hxx : 0 < x * x) by now apply Rmult_lt_0_compat.
  rewrite <- (ln_le_iff 100000 (x * x)) by lra.
  replace 100000 with (10 ^ 5) by (cbn; lra).
  rewrite ln_pow by lra. rewrite ln_mult by assumption.
  unfold log10. cbn [INR].
  split; intros H.
  - assert (2.50 * ln 10 <= ln x).
    { apply (Rmult_le_reg_r (/ ln 10)); [now apply Rinv_0_lt_compat |].
      rewrite Rmult_assoc, Rinv_r by lra. unfold Rdiv in H. lra. }
    lra.
  - apply (Rmult_le_reg_r (ln 10)); [assumption |].
    unfold Rdiv. rewrite Rmult_assoc, Rinv_l by lra. lra.
Qed.

Variables p_se p_fp p_tp : R.
Hypothesis p_se_pos : 0 < p_se.
Hypothesis p_fp_pos : 0 < p_fp.
Hypothesis p_tp_pos : 0 < p_tp.

(** The score of an allele with [c] of [T] informative reads, [0 < c <= T],
    as the logarithm of a ratio of the counts. *)
Lemma lod_of_counts (T c : Z) :
  (0 < c <= T)%Z ->
  0 < IZR (T - c) * p_se + IZR c * p_fp /\
  lod_of p_se p_fp p_tp T c
  = Ok (Finite (log10 (p_tp * IZR c / (IZR (T - c) * p_se + IZR c * p_fp)))).
Proof.
  intros [Hc HT].
  assert (HTr : 0 < IZR T) by (apply IZR_lt; lia).
  assert (Hcr : 0 < IZR c) by (apply IZR_lt; lia).
  assert (Hle : IZR c <= IZR T) by (apply IZR_le; lia).
  rewrite minus_IZR.
  assert (Hd : 0 < (IZR T - IZR c) * p_se + IZR c * p_fp).
  { apply Rplus_le_lt_0_compat.
    - apply Rmult_le_pos; lra.
    - now apply Rmult_lt_0_compat. }
  split; [assumption |].
  set (vaf := IZR c / IZR T).
  assert (Hden : (1 - vaf) * p_se + vaf * p_fp
                 = ((IZR T - IZR c) * p_se + IZR c * p_fp) / IZR T).
  { unfold vaf. field. lra. }
  assert (Hdpos : 0 < (1 - vaf) * p_se + vaf * p_fp).
  { rewrite Hden. now apply Rdiv_lt_0_compat. }
  assert (Hratio : p_tp * vaf / ((1 - vaf) * p_se + vaf * p_fp)
                   = p_tp * IZR c / ((IZR T - IZR c) * p_se + IZR c * p_fp)).
  { rewrite Hden. unfold vaf. field. repeat split; lra. }
  unfold lod_of.
  destruct (Z.ltb_spec 0 T); [| lia].
  rewrite py_div_ok by lra. cbn [bind]. fold vaf.
  rewrite py_div_ok by lra. cbn [bind].
  destruct (Rlt_dec 0 _) as [_ | Hn].
  - now rewrite Hratio.
  - exfalso. apply Hn. apply Rdiv_lt_0_compat; [| assumption].
    apply Rmult_lt_0_compat; [assumption |]. unfold vaf.
    now apply Rdiv_lt_0_compat.
Qed.

End Threshold.

(** ** A run of the scoring pass *)

Lemma ratio_3_of_10_value : ratio_3_of_10 = 810%R.
Proof.
  unfold ratio_3_of_10. replace (10 - 3) with 7 by reflexivity.
  replace (IZR 7 * 0.0001 + IZR 3 * 0.001)%R with 0.0037%R by lra.
  apply (Rmult_eq_reg_r 0.0037); [| lra].
  unfold Rdiv. rewrite Rmult_assoc, Rinv_l by lra. lra.
Qed.

(** Seven reads with the reference base and three with the alternate:
    coverage 10, three variant reads, the score [log10 810] and the label
    [Detectable]. *)
Lemma sample_run :
  scoring_pass reads_7A_3T 0.999 0.001 0.0001 4
    [line_fileformat; line_chrom; line_record_100]
  = Ok [{| out_chrom := "chr1"; out_pos := 100; out_ref := "A"; out_alt := "T";
           detectability_score := FloatScore (Finite (log10 ratio_3_of_10));
           detectability_condition := "Detectable";
           out_coverage := 10; out_variant_reads := 3 |}].
Proof.
  rewrite scoring_pass_unfold, read_vcf_lines_filter.
  replace (forallb has_pos_field [line_fileformat; line_chrom; line_record_100])
    with true by reflexivity.
  replace (filter qualifies [line_fileformat; line_chrom; line_record_100])
    with [line_record_100] by reflexivity.
  cbn [bind]. replace (_ <=? 0) with false by reflexivity.
  unfold process_vcf_chunk. cbn [for_each]. unfold process_vcf_line.
  replace (variant_evidence reads_7A_3T line_record_100)
    with (Ok ("chr1", 100, "A", (7, [("T", 3)]))) by reflexivity.
  cbn [bind]. unfold score_variant.
  replace (7 + py_sum (map snd [("T", 3)])) with 10 by reflexivity.
  cbn [map_result].
  assert (Hse : (0 < 0.0001)%R) by lra.
  assert (Hfp : (0 < 0.001)%R) by lra.
  assert (Htp : (0 < 0.999)%R) by lra.
  destruct (lod_of_counts 0.0001 0.001 0.999 Hse Hfp Htp 10 3 ltac:(lia)) as [_ E].
  rewrite E. fold ratio_3_of_10. cbn [bind app]. unfold report.
  cbn [map coverage num_variant_reads py_max fold_left bind map_result].
  rewrite (classify_scored 10 3 _ (log10 ratio_3_of_10)) by (reflexivity || lia).
  destruct (Rle_dec 2.50 (log10 ratio_3_of_10)) as [_ | Hn].
  - reflexivity.
  - exfalso. apply Hn. apply log10_threshold; rewrite ratio_3_of_10_value; lra.
Qed.

Lemma report_counts_bounded_witness :
  Forall (fun o => 0 <= out_variant_reads o <= out_coverage o)
    [{| out_chrom := "chr1"; out_pos := 100; out_ref := "A"; out_alt := "T";
        detectability_score := FloatScore (Finite (log10 ratio_3_of_10));
        detectability_condition := "Detectable";
        out_coverage := 10; out_variant_reads := 3 |}].
Proof.
  apply (report_counts_bounded reads_7A_3T 0.999 0.001 0.0001 4
           [line_fileformat; line_chrom; line_record_100]).
  exact sample_run.
Defined.

Lemma report_one_allele_per_row_witness :
  Forall (fun o => has_char ","%char (out_alt o) = false)
    [{| out_chrom := "chr1"; out_pos := 100; out_ref := "A"; out_alt := "T";
        detectability_score := FloatScore (Finite (log10 ratio_3_of_10));
        detectability_condition := "Detectable";
        out_coverage := 10; out_variant_reads := 3 |}].
Proof.
  apply (report_one_allele_per_row reads_7A_3T 0.999 0.001 0.0001 4
           [line_fileformat; line_chrom; line_record_100]).
  exact sample_run.
Defined.

Lemma sample_line_rows :
  process_vcf_line no_reads 0.0001 0.001 0.999
    (tsv_line ["chr1"; "300"; "."; "A"; "T,G,T"; "."; "."; "DP=0"])
  = Ok [{| chrom := "chr1"; pos := 300; ref := "A"; alt := "T"; lod := NegInf;
           coverage := 0; num_variant_reads := 0 |};
        {| chrom := "chr1"; pos := 300; ref := "A"; alt := "G"; lod := NegInf;
           coverage := 0; num_variant_reads := 0 |}].
Proof.
  assert (Hse : (0.0001 <> 0)%R) by lra.
  rewrite (process_vcf_line_no_coverage no_reads 0.999 0.001 0.0001 Hse _
             "chr1" "A" 300 (0, [("T", 0); ("G", 0)])); reflexivity.
Qed.

Lemma one_row_per_distinct_alternate_witness :
  exists alt_field,
    py_index
      (split_on tab
         (strip (tsv_line ["chr1"; "300"; "."; "A"; "T,G,T"; "."; "."; "DP=0"]))) 4
    = Ok alt_field /\
    NoDup (map alt
             [{| chrom := "chr1"; pos := 300; ref := "A"; alt := "T"; lod := NegInf;
                 coverage := 0; num_variant_reads := 0 |};
              {| chrom := "chr1"; pos := 300; ref := "A"; alt := "G"; lod := NegInf;
                 coverage := 0; num_variant_reads := 0 |}]) /\
    (forall a,
        In a (map alt
                [{| chrom := "chr1"; pos := 300; ref := "A"; alt := "T";
                    lod := NegInf; coverage := 0; num_variant_reads := 0 |};
                 {| chrom := "chr1"; pos := 300; ref := "A"; alt := "G";
                    lod := NegInf; coverage := 0; num_variant_reads := 0 |}])
        <-> In a (split_on ","%char alt_field)) /\
    forall r1 r2,
      In r1 [{| chrom := "chr1"; pos := 300; ref := "A"; alt := "T"; lod := NegInf;
                coverage := 0; num_variant_reads := 0 |};
             {| chrom := "chr1"; pos := 300; ref := "A"; alt := "G"; lod := NegInf;
                coverage := 0; num_variant_reads := 0 |}] ->
      In r2 [{| chrom := "chr1"; pos := 300; ref := "A"; alt := "T"; lod := NegInf;
                coverage := 0; num_variant_reads := 0 |};
             {| chrom := "chr1"; pos := 300; ref := "A"; alt := "G"; lod := NegInf;
                coverage := 0; num_variant_reads := 0 |}] ->
      chrom r1 = chrom r2 /\ pos r1 = pos r2 /\ ref r1 = ref r2 /\
      coverage r1 = coverage r2.
Proof.
  apply (one_row_per_distinct_alternate no_reads 0.999 0.001 0.0001
           (tsv_line ["chr1"; "300"; "."; "A"; "T,G,T"; "."; "."; "DP=0"])).
  exact sample_line_rows.
Defined.

(** ** Counting at an SNV or MNV site *)

Lemma for_each_concat {A S : Type} (body : S -> A -> result S) (xss : list (list A)) :
  forall s,
    for_each (fun s xs => for_each body xs s) xss s = for_each body (concat xss) s.
Proof.
  induction xss as [| xs xss IH]; intros s; cbn [for_each concat]; [reflexivity |].
  rewrite for_each_app. destruct (for_each body xs s); cbn [bind]; [apply IH | reflexivity].
Qed.

Section DictAsMap.
Context {V : Type}.

Lemma dict_get_map (f : string -> V) (keys : list string) (x : string) :
  dict_get String.eqb (map (fun a => (a, f a)) keys) x
  = if in_dec string_dec x keys then Some (f x) else None.
Proof.
  induction keys as [| k keys IH]; cbn [map dict_get]; [reflexivity |].
  destruct (String.eqb_spec x k) as [-> | Hne].
  - destruct (in_dec string_dec k (k :: keys)) as [_ | Hn]; [reflexivity |].
    exfalso. apply Hn. now left.
  - rewrite IH.
    destruct (in_dec string_dec x keys) as [Hin | Hnin];
      destruct (in_dec string_dec x (k :: keys)) as [Hin' | Hnin']; try reflexivity.
    + exfalso. apply Hnin'. now right.
    + exfalso. destruct Hin' as [E | Hin']; [congruence | contradiction].
Qed.

Lemma dict_set_map (f : string -> V) (keys : list string) (x : string) (v : V) :
  NoDup keys -> In x keys ->
  dict_set String.eqb (map (fun a => (a, f a)) keys) x v
  = map (fun a => (a, if String.eqb a x then v else f a)) keys.
Proof.
  induction keys as [| k keys IH]; intros Hnd Hin; [destruct Hin |].
  inversion Hnd as [| ? ? Hnotin Hnd']; subst. cbn [map dict_set].
  destruct (String.eqb_spec x k) as [-> | Hne].
  - rewrite String.eqb_refl. f_equal. apply map_ext_in. intros a Ha.
    destruct (String.eqb_spec a k) as [-> | _]; [contradiction | reflexivity].
  - destruct (String.eqb_spec k x) as [E | _]; [congruence |].
    f_equal. apply IH; [assumption |].
    destruct Hin as [E | Hin]; [congruence | assumption].
Qed.

End DictAsMap.

Lemma occurrences_snoc (a x : string) (t : list string) :
  occurrences a (t ++ [x]) = occurrences a t + (if String.eqb a x then 1 else 0).
Proof.
  unfold occurrences. rewrite count_occ_app. cbn [count_occ].
  destruct (string_dec x a) as [-> | Hne].
  - rewrite String.eqb_refl. lia.
  - destruct (String.eqb_spec a x) as [E | _]; [congruence | lia].
Qed.

Section SequenceSite.
Variables (ref : string) (keys : list string).
Hypothesis keys_distinct : NoDup keys.

(** Lines 50-53 and 62-65 on the counters in closed form. *)
Lemma count_sequence_shown (texts : list string) (x : string) :
  count_sequence ref (sequence_counts ref keys texts) x
  = Ok (sequence_counts ref keys (texts ++ [x])).
Proof.
  unfold count_sequence, sequence_counts.
  destruct (String.eqb_spec x ref) as [-> | Hne].
  - rewrite (occurrences_snoc ref ref), String.eqb_refl. apply f_equal. apply f_equal.
    apply map_ext. intros a. destruct (String.eqb_spec a ref) as [_ | Ha];
      [reflexivity |].
    rewrite occurrences_snoc. destruct (String.eqb_spec a ref); [contradiction |].
    now rewrite Z.add_0_r.
  - assert (Hr : occurrences ref (texts ++ [x]) = occurrences ref texts).
    { rewrite occurrences_snoc.
      destruct (String.eqb_spec ref x) as [E | _]; [congruence | lia]. }
    rewrite Hr.
    rewrite (dict_get_map
               (fun a => if String.eqb a ref then 0 else occurrences a texts)).
    destruct (in_dec string_dec x keys) as [Hin | Hnin].
    + unfold dict_incr.
      rewrite (dict_get_map
                 (fun a => if String.eqb a ref then 0 else occurrences a texts)).
      destruct (in_dec string_dec x keys) as [_ | Hn]; [| contradiction].
      rewrite (dict_set_map
                 (fun a => if String.eqb a ref then 0 else occurrences a texts))
        by assumption.
      cbn [bind]. apply f_equal. apply f_equal. apply map_ext. intros a.
      rewrite occurrences_snoc.
      destruct (String.eqb_spec a x) as [-> | Hax].
      * destruct (String.eqb_spec x ref); [contradiction | reflexivity].
      * destruct (String.eqb a ref); [reflexivity | apply f_equal; lia].
    + apply f_equal. apply f_equal. apply map_ext_in. intros a Ha.
      rewrite occurrences_snoc.
      destruct (String.eqb_spec a x) as [-> | _]; [contradiction |].
      now rewrite Z.add_0_r.
Qed.

Variable alt_alleles : list string.
Hypothesis site : py_max (map str_len alt_alleles) = Ok (str_len ref).

Lemma count_read_shows (st : counts) (r : pileup_read) :
  count_read ref alt_alleles st r
  = (shown <- read_shows ref r ;;
     match shown with
     | Some x => count_sequence ref st x
     | None => Ok st
     end).
Proof.
  unfold count_read, read_shows. rewrite site. cbn [bind]. rewrite Z.eqb_refl.
  destruct (is_refskip r); cbn [negb]; [reflexivity |].
  destruct (str_len ref =? 1); (destruct (is_del r); cbn [negb]; [reflexivity |]).
  - destruct (query_sequence r); cbn [not_none bind]; [| reflexivity].
    destruct (query_position r); cbn [not_none bind]; [| reflexivity].
    destruct (str_index _ _); reflexivity.
  - destruct (query_position r); cbn [not_none bind]; [| reflexivity].
    destruct (query_sequence r); reflexivity.
Qed.

Lemma count_reads_shown (reads : list pileup_read) :
  forall texts,
    for_each (count_read ref alt_alleles) reads (sequence_counts ref keys texts)
    = (shown <- map_result (read_shows ref) reads ;;
       Ok (sequence_counts ref keys (texts ++ shown_texts shown))).
Proof.
  induction reads as [| r reads IH]; intros texts; cbn [for_each map_result bind].
  - cbn. now rewrite app_nil_r.
  - rewrite count_read_shows.
    destruct (read_shows ref r) as [[x |] |]; cbn [bind]; [| | reflexivity].
    + rewrite count_sequence_shown. cbn [bind]. rewrite IH.
      destruct (map_result (read_shows ref) reads); cbn [bind]; [| reflexivity].
      cbn [shown_texts flat_map]. fold (shown_texts a).
      now rewrite <- app_assoc.
    + rewrite IH.
      destruct (map_result (read_shows ref) reads); reflexivity.
Qed.

End SequenceSite.

Lemma init_allele_counts_zero (alt_alleles : list string) :
  init_allele_counts alt_alleles
  = map (fun a => (a, 0)) (map fst (init_allele_counts alt_alleles)).
Proof.
  unfold init_allele_counts.
  assert (G : forall d : list (string * Z),
             Forall (fun kv => snd kv = 0) d ->
             Forall (fun kv => snd kv = 0)
               (fold_left (fun d allele => dict_set String.eqb d allele 0)
                  alt_alleles d)).
  { induction alt_alleles as [| x xs IH]; intros d Hd; cbn; [exact Hd |].
    apply IH. now apply (dict_set_values (fun v => v = 0)). }
  specialize (G [] ltac:(constructor)).
  induction G as [| [a v] d Hv _ IH]; [reflexivity |].
  cbn in Hv. subst v. cbn [map fst]. now rewrite <- IH.
Qed.

(** X13. At an SNV or MNV site (the reference as long as the longest
    alternate) counting is a tally of what the reads show: [ref_count] is
    the number of reads that show the reference, and the counter of an
    alternate is the number of reads that show it (0 for an alternate
    that equals the reference). Reference skips and deletions show
    nothing; a read that cannot be read makes the counting raise what
    reading it raises. *)
Theorem sequence_site_tally (ref : string) (alt_alleles : list string)
    (pileup : list (list pileup_read)) :
  py_max (map str_len alt_alleles) = Ok (str_len ref) ->
  count_reads ref alt_alleles pileup
  = (shown <- map_result (read_shows ref) (concat pileup) ;;
     Ok (occurrences ref (shown_texts shown),
         map (fun a =>
                (a, if String.eqb a ref then 0
                    else occurrences a (shown_texts shown)))
             (map fst (init_allele_counts alt_alleles)))).
Proof.
  intros Hsite. unfold count_reads. rewrite for_each_concat.
  destruct (init_allele_counts_distinct alt_alleles) as [Hnd _].
  assert (Hinit : (0, init_allele_counts alt_alleles)
                  = sequence_counts ref (map fst (init_allele_counts alt_alleles)) []).
  { unfold sequence_counts. apply f_equal.
    rewrite (init_allele_counts_zero alt_alleles) at 1.
    apply map_ext. intros a. now destruct (String.eqb a ref). }
  rewrite Hinit.
  rewrite (count_reads_shown ref (map fst (init_allele_counts alt_alleles)) Hnd
             alt_alleles Hsite).
  reflexivity.
Qed.

Lemma sequence_site_tally_witness :
  count_reads "A" ["T"; "G"]
    [repeat (plain_read "A" 0) 7 ++ repeat (plain_read "T" 0) 3]
  = (shown <- map_result (read_shows "A")
                (concat [repeat (plain_read "A" 0) 7 ++ repeat (plain_read "T" 0) 3]) ;;
     Ok (occurrences "A" (shown_texts shown),
         map (fun a =>
                (a, if String.eqb a "A" then 0
                    else occurrences a (shown_texts shown)))
             (map fst (init_allele_counts ["T"; "G"])))).
Proof.
  apply (sequence_site_tally "A" ["T"; "G"]
           [repeat (plain_read "A" 0) 7 ++ repeat (plain_read "T" 0) 3]).
  reflexivity.
Defined.

(** X14. Reads flagged as reference skips never count, whatever the kind
    of site: leaving them out of the pileup changes nothing, errors
    included. *)
Theorem refskip_reads_ignored (ref : string) (alt_alleles : list string)
    (pileup : list (list pileup_read)) :
  count_reads ref alt_alleles pileup
  = count_reads ref alt_alleles
      (map (filter (fun r => negb (is_refskip r))) pileup).
Proof.
  unfold count_reads. rewrite !for_each_concat.
  generalize (0, init_allele_counts alt_alleles) as st.
  induction pileup as [| col cols IH]; intros st; [reflexivity |].
  cbn [map concat]. rewrite !for_each_app.
  assert (Hcol : forall s,
             for_each (count_read ref alt_alleles) col s
             = for_each (count_read ref alt_alleles)
                 (filter (fun r => negb (is_refskip r)) col) s).
  { induction col as [| r col IHc]; intros s; [reflexivity |].
    cbn [filter for_each]. destruct (is_refskip r) eqn:Hskip; cbn [negb].
    - unfold count_read at 1. rewrite Hskip. cbn [negb bind]. apply IHc.
    - cbn [for_each]. destruct (count_read ref alt_alleles s r); cbn [bind];
        [apply IHc | reflexivity]. }
  rewrite Hcol.
  destruct (for_each (count_read ref alt_alleles)
              (filter (fun r => negb (is_refskip r)) col) st); cbn [bind];
    [apply IH | reflexivity].
Qed.

(** ** The merge pass: records that match no row, and the table *)

Section MergeMisses.
Variable d : det_dict.

Lemma merge_record_miss (idx : option Z) (line out : string) :
  merge_record d idx line = Ok out ->
  (forall vcf_id,
      record_key (split_on tab (strip line)) = Ok vcf_id ->
      dict_get vcf_key_eqb d vcf_id = None) ->
  out = line.
Proof.
  unfold merge_record. intros H Hmiss.
  destruct (record_key (split_on tab (strip line))) as [k |]; cbn [bind] in H;
    [| discriminate].
  rewrite (Hmiss k eq_refl) in H. now injection H as <-.
Qed.

Lemma merge_loop_misses (ls : list string) :
  forall st st' : merge_state,
    for_each (merge_line d) ls st = Ok st' ->
    no_record_matches d ls ->
    updated_vcf_lines st'
    = updated_vcf_lines st ++ (if info_added st then ls else with_new_headers ls).
Proof.
  induction ls as [| l ls IH]; intros st st' H Hmiss; cbn [for_each] in H.
  - injection H as <-. destruct (info_added st); cbn; now rewrite app_nil_r.
  - destruct (merge_line d st l) as [st1 |] eqn:H1; cbn [bind] in H; [| discriminate].
    assert (Hrest : no_record_matches d ls).
    { intros line k Hin. apply Hmiss. now right. }
    specialize (IH _ _ H Hrest).
    destruct (info_added st) eqn:Ha.
    + apply merge_line_plain in H1 as (out & Ho & Hp & Ha1); [| now left].
      rewrite Ha in Ha1. rewrite Ha1 in IH. rewrite IH, Ho, <- app_assoc. cbn [app].
      do 2 f_equal. unfold passed_through in Hp.
      destruct (startswith l "#") eqn:Hh; [assumption |].
      destruct Hp as [idx Hr]. apply (merge_record_miss _ _ _ Hr).
      intros k Hk. apply (Hmiss l k); [now left | assumption | assumption].
    + cbn [with_new_headers]. destruct (startswith l "##INFO") eqn:HI.
      * apply merge_line_first_info in H1 as [Ho Ha1]; [| assumption | assumption].
        rewrite Ha1 in IH. rewrite IH, Ho, <- app_assoc. reflexivity.
      * apply merge_line_plain in H1 as (out & Ho & Hp & Ha1); [| now right].
        rewrite Ha in Ha1. rewrite Ha1 in IH. rewrite IH, Ho, <- app_assoc.
        cbn [app]. do 2 f_equal. unfold passed_through in Hp.
        destruct (startswith l "#") eqn:Hh; [assumption |].
        destruct Hp as [idx Hr]. apply (merge_record_miss _ _ _ Hr).
        intros k Hk. apply (Hmiss l k); [now left | assumption | assumption].
Qed.

(** Without a line that starts with [#C], [info_idx] stays unbound, and a
    data record goes through only if it matches no row. *)
Lemma merge_loop_unbound (ls : list string) :
  forall st st' : merge_state,
    for_each (merge_line d) ls st = Ok st' ->
    info_idx st = None ->
    Forall (fun l => startswith l "#C" = false) ls ->
    no_record_matches d ls.
Proof.
  induction ls as [| l ls IH]; intros st st' H Hidx HC; cbn [for_each] in H.
  - intros line k [].
  - inversion HC as [| ? ? HCl HCls]; subst.
    destruct (merge_line d st l) as [st1 |] eqn:H1; cbn [bind] in H; [| discriminate].
    assert (Hstep : info_idx st1 = None /\
                    (startswith l "#" = false ->
                     exists out, merge_record d None l = Ok out)).
    { unfold merge_line in H1. rewrite HCl, Hidx in H1. cbn [bind] in H1.
      destruct (startswith l "##INFO") eqn:HI.
      - apply startswith_first in HI.
        destruct (negb (info_added st)); injection H1 as <-;
          (split; [reflexivity | congruence]).
      - destruct (startswith l "#") eqn:Hh.
        + rewrite orb_true_r in H1. injection H1 as <-. split; [reflexivity | congruence].
        + destruct (startswith l "##") eqn:Hhh.
          { apply startswith_first in Hhh. congruence. }
          cbn [orb] in H1.
          destruct (merge_record d None l) as [out |]; cbn [bind] in H1;
            [| discriminate].
          injection H1 as <-. split; [reflexivity | eauto]. }
    destruct Hstep as [Hidx1 Hrec].
    specialize (IH _ _ H Hidx1 HCls).
    intros line k [<- | Hin] Hh Hk; [| now apply (IH line k)].
    destruct (Hrec Hh) as [out Hr]. unfold merge_record in Hr.
    rewrite Hk in Hr. cbn [bind] in Hr.
    destruct (dict_get vcf_key_eqb d k); [discriminate | reflexivity].
Qed.

End MergeMisses.

(** X15. When no data record of the VCF has its identity tuple in the
    table and the merge pass completes, the output is the input, line by
    line as it was, with the two new header lines put right after the
    first [##INFO] line (and nothing added when there is none). *)
Theorem merge_unmatched_records (tsv_df : list table_row) (vcf_file out : list string) :
  no_record_matches (detectability_data_dict tsv_df) vcf_file ->
  merge_detectability_into_vcf tsv_df vcf_file = Ok out ->
  out = with_new_headers vcf_file.
Proof.
  intros Hmiss H. unfold merge_detectability_into_vcf in H.
  destruct (for_each _ vcf_file merge_init) as [st |] eqn:Hrun; cbn [bind] in H;
    [| discriminate].
  injection H as <-. now rewrite (merge_loop_misses _ _ _ _ Hrun Hmiss).
Qed.

Lemma merge_unmatched_records_witness :
  [line_fileformat; line_info_dp; DET_header; DETS_header; line_info_af; line_chrom;
   line_record_200]
  = with_new_headers
      [line_fileformat; line_info_dp; line_info_af; line_chrom; line_record_200].
Proof.
  apply (merge_unmatched_records sample_table
           [line_fileformat; line_info_dp; line_info_af; line_chrom; line_record_200]).
  - intros line k [<- | [<- | [<- | [<- | [<- | []]]]]] Hh; try discriminate Hh.
    intros [= <-]. reflexivity.
  - reflexivity.
Defined.

(** X16. A VCF without a line that starts with [#C] (no [#CHROM] line)
    is never annotated: the merge pass completes on it only when no data
    record matches a row of the table, and the output is then the input
    with the two new header lines. (A matching record raises
    [UnboundLocalError] for [info_idx].) *)
Theorem merge_without_chrom_line (tsv_df : list table_row) (vcf_file out : list string) :
  Forall (fun l => startswith l "#C" = false) vcf_file ->
  merge_detectability_into_vcf tsv_df vcf_file = Ok out ->
  no_record_matches (detectability_data_dict tsv_df) vcf_file /\
  out = with_new_headers vcf_file.
Proof.
  intros HC H. unfold merge_detectability_into_vcf in H.
  destruct (for_each _ vcf_file merge_init) as [st |] eqn:Hrun; cbn [bind] in H;
    [| discriminate].
  injection H as <-.
  pose proof (merge_loop_unbound _ _ _ _ Hrun eq_refl HC) as Hmiss.
  split; [assumption |]. now rewrite (merge_loop_misses _ _ _ _ Hrun Hmiss).
Qed.

Lemma merge_without_chrom_line_witness :
  no_record_matches (detectability_data_dict sample_table)
    [line_info_dp; line_record_200] /\
  [line_info_dp; DET_header; DETS_header; line_record_200]
  = with_new_headers [line_info_dp; line_record_200].
Proof.
  apply (merge_without_chrom_line sample_table [line_info_dp; line_record_200]).
  - repeat constructor.
  - reflexivity.
Defined.

Lemma merge_matching_record_without_chrom_line :
  merge_detectability_into_vcf sample_table [line_info_dp; line_record_100]
  = Raise UnboundLocalError.
Proof. reflexivity. Qed.

(** *** The table as a dictionary *)

Lemma cell_eqb_spec (a b : cell) : cell_eqb a b = true <-> a = b.
Proof.
  destruct a as [s | n], b as [t | m]; cbn; try (split; [discriminate | discriminate]).
  - rewrite String.eqb_eq. split; [now intros -> | now intros [= ->]].
  - rewrite Z.eqb_eq. split; [now intros -> | now intros [= ->]].
Qed.

Lemma vcf_key_eqb_spec (a b : vcf_key) : vcf_key_eqb a b = true <-> a = b.
Proof.
  destruct a as [[[a1 a2] a3] a4], b as [[[b1 b2] b3] b4]. cbn.
  rewrite !andb_true_iff, !cell_eqb_spec.
  split; [intros [[[-> ->] ->] ->]; reflexivity | intros [= -> -> -> ->]; auto].
Qed.

Section DictLaws.
Context {K V : Type} (key_eqb : K -> K -> bool).
Hypothesis key_eqb_spec : forall a b, key_eqb a b = true <-> a = b.

(** Lookup after assignment. *)
Lemma dict_get_set (d : list (K * V)) (k k' : K) (v : V) :
  dict_get key_eqb (dict_set key_eqb d k v) k'
  = if key_eqb k' k then Some v else dict_get key_eqb d k'.
Proof.
  induction d as [| [k0 v0] d IH]; cbn [dict_set dict_get]; [reflexivity |].
  destruct (key_eqb k k0) eqn:E; cbn [dict_get].
  - apply key_eqb_spec in E. subst k0. now destruct (key_eqb k' k).
  - rewrite IH. destruct (key_eqb k' k0) eqn:E0; [| reflexivity].
    apply key_eqb_spec in E0. subst k0.
    destruct (key_eqb k' k) eqn:E1; [| reflexivity].
    apply key_eqb_spec in E1. subst k'.
    assert (key_eqb k k = true) by now apply key_eqb_spec. congruence.
Qed.

End DictLaws.

(** X17. The dictionary built from the table answers a lookup with the
    entry of the last row that has the identity tuple asked for, and with
    nothing when no row has it; the entry says [Yes] exactly when the
    label of that row is the text [Detectable]. *)
Theorem table_last_row_wins (tsv_df : list table_row) (vcf_id : vcf_key) :
  dict_get vcf_key_eqb (detectability_data_dict tsv_df) vcf_id
  = option_map table_entry
      (find (fun row => vcf_key_eqb vcf_id (table_key row)) (rev tsv_df)).
Proof.
  unfold detectability_data_dict.
  induction tsv_df as [| row rows IH] using rev_ind; [reflexivity |].
  rewrite fold_left_app, rev_app_distr. cbn [fold_left rev app find].
  rewrite (dict_get_set vcf_key_eqb vcf_key_eqb_spec).
  fold (table_key row).
  destruct (vcf_key_eqb vcf_id (table_key row)); [reflexivity | exact IH].
Qed.

(** ** The merge pass: what annotating a record changes *)

Lemma split_on_single (c : ascii) (x : string) :
  has_char c x = false -> split_on c x = [x].
Proof.
  unfold split_on. induction x as [| a x IH]; cbn [has_char split_where];
    [reflexivity |].
  intros H. apply orb_false_iff in H as [Ha Hx].
  rewrite Ha, (IH Hx). reflexivity.
Qed.

Lemma split_on_app_sep (c : ascii) (x rest : string) :
  has_char c x = false ->
  split_on c (x ++ String c rest)%string = x :: split_on c rest.
Proof.
  unfold split_on. induction x as [| a x IH]; cbn [has_char split_where append].
  - intros _. now rewrite Ascii.eqb_refl.
  - intros H. apply orb_false_iff in H as [Ha Hx].
    rewrite Ha, (IH Hx). reflexivity.
Qed.

(** Splitting what was joined gives the pieces back, when there is a
    piece and no piece holds the separator. *)
Lemma split_join (c : ascii) (cols : list string) :
  cols <> [] ->
  Forall (fun w => has_char c w = false) cols ->
  split_on c (join (String c EmptyString) cols) = cols.
Proof.
  intros Hne Hall. unfold join.
  induction Hall as [| x cols Hx Hcols IH]; [contradiction |].
  destruct cols as [| y rest].
  - now apply split_on_single.
  - change (String.concat (String c "") (x :: y :: rest))
      with (x ++ String c (String.concat (String c "") (y :: rest)))%string.
    rewrite split_on_app_sep by assumption.
    f_equal. apply IH. discriminate.
Qed.

Lemma py_setitem_nth_error {A : Type} (l l' : list A) (i : Z) (v : A) :
  0 <= i -> py_setitem l i v = Ok l' ->
  forall j, nth_error l' j = if Z.of_nat j =? i then Some v else nth_error l j.
Proof.
  unfold py_setitem, py_len. intros Hi H j.
  destruct (Z.ltb_spec i 0); [lia |].
  destruct (Z.ltb_spec i 0); [lia |]. cbn [orb] in H.
  destruct (Z.leb_spec (Z.of_nat (length l)) i); [discriminate |].
  injection H as <-.
  rewrite nth_error_app, length_firstn, nth_error_firstn.
  rewrite Nat.min_l by lia.
  destruct (Nat.ltb_spec j (Z.to_nat i)) as [Hlt | Hge].
  - destruct (Z.eqb_spec (Z.of_nat j) i); [lia | reflexivity].
  - destruct (Z.eqb_spec (Z.of_nat j) i) as [E | Hne].
    + replace (j - Z.to_nat i)%nat with 0%nat by lia. reflexivity.
    + destruct (j - Z.to_nat i)%nat as [| k] eqn:Ek; [lia |].
      cbn [nth_error]. rewrite nth_error_skipn. f_equal. lia.
Qed.

(** X18. Annotating a record changes its INFO column and nothing else:
    the line written is the columns of the record joined by tabs, with
    the same number of columns, the column at [info_idx] extended by
    [;DET=...;DETS=...] and every other column as it was; and reading the
    line back by tabs gives these columns (the status and the score of
    the table hold no tab). *)
Theorem annotate_changes_info_only (s : string) (info_idx : Z) (entry : det_entry)
    (out : string) :
  0 <= info_idx ->
  has_char tab (condition entry) = false ->
  has_char tab (score entry) = false ->
  annotate (split_on tab s) (Some info_idx) entry = Ok out ->
  exists (old : string) (columns' : list string),
    py_index (split_on tab s) info_idx = Ok old /\
    out = (join (String tab EmptyString) columns' ++ nl)%string /\
    split_on tab (join (String tab EmptyString) columns') = columns' /\
    length columns' = length (split_on tab s) /\
    forall j,
      nth_error columns' j
      = if Z.of_nat j =? info_idx
        then Some (old ++ info_suffix entry)%string
        else nth_error (split_on tab s) j.
Proof.
  intros Hi Hcond Hscore H. unfold annotate in H. cbn [bind] in H.
  destruct (py_index (split_on tab s) info_idx) as [old |] eqn:Hold; cbn [bind] in H;
    [| discriminate].
  destruct (py_setitem (split_on tab s) info_idx _) as [columns' |] eqn:Hset;
    cbn [bind] in H; [| discriminate].
  injection H as <-. fold (info_suffix entry) in Hset.
  pose proof (py_setitem_length _ _ _ _ Hset) as Hlen.
  pose proof (py_setitem_nth_error _ _ _ _ Hi Hset) as Hnth.
  exists old, columns'. repeat split; try assumption.
  apply split_join.
  - intros ->. pose proof (split_where_nonempty (Ascii.eqb tab) s) as Hne.
    unfold split_on in Hlen. destruct (split_where (Ascii.eqb tab) s);
      [contradiction | discriminate].
  - pose proof (split_on_no_sep tab s) as Hcols. rewrite Forall_forall in Hcols.
    apply Forall_forall. intros x Hx.
    apply In_nth_error in Hx as [j Hj]. rewrite Hnth in Hj.
    destruct (Z.of_nat j =? info_idx).
    + injection Hj as <-. unfold info_suffix.
      rewrite !has_char_app, Hcond, Hscore.
      assert (Hold' : has_char tab old = false).
      { pose proof (py_index_spec (split_on tab s) info_idx Hi) as Hspec.
        destruct (info_idx <? py_len (split_on tab s)).
        - destruct Hspec as (x & Hx & Hn). rewrite Hold in Hx. injection Hx as <-.
          apply Hcols. eapply nth_error_In; eassumption.
        - congruence. }
      rewrite Hold'. reflexivity.
    + apply Hcols. eapply nth_error_In; eassumption.
Qed.

Lemma annotate_changes_info_only_witness :
  exists (old : string) (columns' : list string),
    py_index (split_on tab (strip line_record_100)) 7 = Ok old /\
    tsv_line ["chr1"; "100"; "."; "A"; "T"; "."; "."; "DP=10;DET=Yes;DETS=2.756"]
    = (join (String tab EmptyString) columns' ++ nl)%string /\
    split_on tab (join (String tab EmptyString) columns') = columns' /\
    length columns' = length (split_on tab (strip line_record_100)) /\
    forall j,
      nth_error columns' j
      = if Z.of_nat j =? 7
        then Some (old ++ info_suffix {| condition := "Yes"; score := "2.756" |})%string
        else nth_error (split_on tab (strip line_record_100)) j.
Proof.
  apply (annotate_changes_info_only (strip line_record_100) 7
           {| condition := "Yes"; score := "2.756" |});
    [lia | reflexivity | reflexivity | reflexivity].
Defined.

(** ** The sizes of the chunks *)

(** X19. For a positive worker count and a list that is not empty, with
    [n = min(W, L)]: every chunk has between 1 and [L // n] items, and
    every chunk but the last has exactly [L // n]. *)
Theorem chunkify_sizes {A : Type} (lst : list A) (W : Z) :
  0 < Z.min W (py_len lst) ->
  Forall
    (fun chunk => 1 <= py_len chunk <= py_len lst / Z.min W (py_len lst))
    (chunkify lst W) /\
  forall (k : nat) (chunk : list A),
    (S k < length (chunkify lst W))%nat ->
    nth_error (chunkify lst W) k = Some chunk ->
    py_len chunk = py_len lst / Z.min W (py_len lst).
Proof.
  intros Hn. rewrite chunkify_windows by assumption.
  set (L := py_len lst) in *. set (n := Z.min W L) in *.
  assert (Hq : 1 <= L / n) by (apply Z.div_le_lower_bound; lia).
  rewrite Z.max_r by lia.
  set (s := L / n) in *.
  assert (Hm : 0 <= (L - 1) / s) by (apply Z.div_pos; lia).
  assert (Hks : forall k : nat,
             Z.of_nat k <= (L - 1) / s -> Z.of_nat k * s <= L - 1).
  { intros k Hk. transitivity (((L - 1) / s) * s).
    - apply Z.mul_le_mono_nonneg_r; lia.
    - rewrite Z.mul_comm. apply Z.mul_div_le. lia. }
  assert (Hlen : forall k : nat,
             py_len (firstn (Z.to_nat s) (skipn (k * Z.to_nat s) lst))
             = Z.min s (Z.max 0 (L - Z.of_nat k * s))).
  { intros k. unfold py_len. rewrite length_firstn, length_skipn.
    unfold L, py_len. lia. }
  split.
  - apply Forall_forall. intros c Hc. apply in_map_iff in Hc as (k & <- & Hk).
    apply in_seq in Hk. rewrite Hlen.
    assert (Z.of_nat k * s <= L - 1) by (apply Hks; lia).
    lia.
  - intros k c Hk Hc. rewrite length_map, length_seq in Hk.
    rewrite nth_error_map, nth_error_seq in Hc.
    destruct (Nat.ltb_spec k (Z.to_nat ((L - 1) / s + 1))); [| discriminate].
    cbn in Hc. injection Hc as <-. rewrite Hlen.
    assert (Z.of_nat (S k) * s <= L - 1) by (apply Hks; lia).
    lia.
Qed.

Lemma chunkify_sizes_witness :
  Forall
    (fun chunk =>
       1 <= py_len chunk <= py_len [1; 2; 3; 4; 5; 6; 7] / Z.min 3 (py_len [1; 2; 3; 4; 5; 6; 7]))
    (chunkify [1; 2; 3; 4; 5; 6; 7] 3) /\
  forall (k : nat) (chunk : list Z),
    (S k < length (chunkify [1; 2; 3; 4; 5; 6; 7] 3))%nat ->
    nth_error (chunkify [1; 2; 3; 4; 5; 6; 7] 3) k = Some chunk ->
    py_len chunk = py_len [1; 2; 3; 4; 5; 6; 7] / Z.min 3 (py_len [1; 2; 3; 4; 5; 6; 7]).
Proof.
  apply (chunkify_sizes [1; 2; 3; 4; 5; 6; 7] 3). reflexivity.
Defined.

(** ** Counting at an indel site *)

Lemma dict_get_known_key (d : list (string * Z)) (k : string) :
  In k (map fst d) -> exists v, dict_get String.eqb d k = Some v.
Proof.
  induction d as [| [k' v'] d IH]; cbn; intros H; [destruct H |].
  destruct (String.eqb_spec k k') as [-> | Hne]; [eauto |].
  destruct H as [E | H]; [congruence | auto].
Qed.

Lemma py_sum_zeros {A : Type} (l : list A) : py_sum (map (fun _ => 0) l) = 0.
Proof.
  induction l as [| x l IH]; [reflexivity |].
  cbn [map]. rewrite py_sum_cons, IH. reflexivity.
Qed.

Lemma count_indel_total (keys : list string) (ref : string) (i : Z) (st : counts)
    (a : string) :
  counting_inv keys st -> In a keys ->
  exists st',
    count_indel ref i st a = Ok st' /\ counting_inv keys st' /\
    total_count st <= total_count st' <= total_count st + 1.
Proof.
  intros Hinv Ha. destruct st as [rc d].
  assert (Hk : In a (map fst d)).
  { destruct Hinv as [_ Hk]. cbn [snd] in Hk. now rewrite Hk. }
  destruct (dict_get_known_key d a Hk) as [v Hv].
  assert (Hincr : exists d', dict_incr d a = Ok d').
  { unfold dict_incr. rewrite Hv. eauto. }
  destruct Hincr as [d' Hd'].
  unfold count_indel. destruct (i =? str_len a - str_len ref).
  - rewrite Hd'. cbn [bind]. exists (rc, d'). split; [reflexivity |].
    split; [eapply dict_incr_inv; eassumption |].
    unfold total_count. cbn [fst snd]. rewrite (dict_incr_sum _ _ _ Hd'). lia.
  - destruct (i =? 0).
    + exists (rc + 1, d). split; [reflexivity |]. split.
      * destruct Hinv as [[Hr Hd] Hkeys]. repeat split; cbn [fst snd] in *;
          [lia | assumption | assumption].
      * unfold total_count. cbn [fst snd]. lia.
    + exists (rc, d). split; [reflexivity |]. split; [assumption | lia].
Qed.

Lemma count_indel_each (keys : list string) (ref : string) (i : Z)
    (alt_alleles : list string) :
  (forall a, In a alt_alleles -> In a keys) ->
  forall st,
    counting_inv keys st ->
    exists st',
      for_each (count_indel ref i) alt_alleles st = Ok st' /\ counting_inv keys st' /\
      total_count st <= total_count st' <= total_count st + py_len alt_alleles.
Proof.
  unfold py_len.
  induction alt_alleles as [| a alts IH]; intros Hin st Hinv.
  - exists st. cbn [for_each length].
    split; [reflexivity |]. split; [assumption | lia].
  - destruct (count_indel_total keys ref i st a Hinv (Hin a (or_introl eq_refl)))
      as (st1 & E1 & Hinv1 & Hb1).
    destruct (IH (fun a Ha => Hin a (or_intror Ha)) st1 Hinv1)
      as (st2 & E2 & Hinv2 & Hb2).
    exists st2. cbn [for_each]. rewrite E1. cbn [bind]. rewrite E2.
    split; [reflexivity |]. split; [assumption | cbn [length]; lia].
Qed.

Lemma count_read_indel_site (keys : list string) (ref : string)
    (alt_alleles : list string) (m : Z) (st : counts) (r : pileup_read) :
  py_max (map str_len alt_alleles) = Ok m -> m <> str_len ref ->
  (forall a, In a alt_alleles -> In a keys) ->
  counting_inv keys st ->
  exists st',
    count_read ref alt_alleles st r = Ok st' /\ counting_inv keys st' /\
    total_count st <= total_count st' <= total_count st + py_len alt_alleles.
Proof.
  intros Hmax Hm Hin Hinv. unfold count_read.
  destruct (is_refskip r); cbn [negb].
  - exists st. unfold py_len.
    split; [reflexivity |]. split; [assumption | lia].
  - cbv zeta. rewrite Hmax. cbn [bind].
    destruct (Z.eqb_spec (str_len ref) m) as [E | _]; [congruence |].
    now apply count_indel_each.
Qed.

(** X20. At an indel site (the longest alternate not as long as the
    reference) counting completes for every pileup, whatever the reads
    hold: no read makes it raise. The total lies between 0 and the number
    of reads times the number of alternates of the ALT field. *)
Theorem indel_site_counting_completes (ref : string) (alt_alleles : list string)
    (pileup : list (list pileup_read)) (m : Z) :
  py_max (map str_len alt_alleles) = Ok m -> m <> str_len ref ->
  exists st,
    count_reads ref alt_alleles pileup = Ok st /\
    0 <= total_count st <= py_len alt_alleles * py_len (concat pileup).
Proof.
  intros Hmax Hm. unfold count_reads. rewrite for_each_concat.
  set (keys := map fst (init_allele_counts alt_alleles)).
  assert (Hin : forall a, In a alt_alleles -> In a keys)
    by (intros a; apply init_allele_counts_keys).
  assert (G : forall reads st,
             counting_inv keys st ->
             exists st',
               for_each (count_read ref alt_alleles) reads st = Ok st' /\
               total_count st <= total_count st'
               <= total_count st + py_len alt_alleles * py_len reads).
  { unfold py_len. induction reads as [| r reads IH]; intros st Hinv.
    - exists st. cbn. split; [reflexivity | lia].
    - destruct (count_read_indel_site keys ref alt_alleles m st r Hmax Hm Hin Hinv)
        as (st1 & E1 & Hinv1 & Hb1).
      destruct (IH st1 Hinv1) as (st2 & E2 & Hb2).
      exists st2. cbn [for_each]. rewrite E1. cbn [bind]. rewrite E2.
      split; [reflexivity |]. unfold py_len in Hb1. cbn [length]. nia. }
  destruct (G (concat pileup) (0, init_allele_counts alt_alleles)) as (st & E & Hb).
  { split; [split; cbn [fst snd]; [lia | apply init_allele_counts_nonneg] | reflexivity]. }
  exists st. split; [exact E |].
  assert (H0 : total_count (0, init_allele_counts alt_alleles) = 0).
  { unfold total_count. cbn [fst snd]. rewrite init_allele_counts_zero.
    rewrite map_map. cbn [snd]. now rewrite py_sum_zeros. }
  lia.
Qed.

Lemma indel_site_counting_completes_witness :
  exists st,
    count_reads "A" ["T"; "TT"] [[read_A_ins3; plain_read "A" 0]] = Ok st /\
    0 <= total_count st
    <= py_len ["T"; "TT"] * py_len (concat [[read_A_ins3; plain_read "A" 0]]).
Proof.
  apply (indel_site_counting_completes "A" ["T"; "TT"]
           [[read_A_ins3; plain_read "A" 0]] 2);
    [reflexivity | vm_compute; lia].
Defined.

(** ** The merge pass: the column that is annotated *)

Section MergeColumn.
Variable d : det_dict.

(** [info_idx] after a line: set by a [#C] line, kept by any other. *)
Lemma merge_line_info_idx (st st' : merge_state) (line : string) :
  merge_line d st line = Ok st' ->
  if startswith line "#C"
  then exists i, list_index (split_ws (strip line)) "INFO" = Ok i /\
                 info_idx st' = Some i
  else info_idx st' = info_idx st.
Proof.
  unfold merge_line. intros H.
  assert (G : forall idx,
             (if startswith line "##INFO" then
                if negb (info_added st)
                then Ok (append_lines st idx true [line; DET_header; DETS_header])
                else Ok (append_lines st idx (info_added st) [line])
              else if startswith line "##" || startswith line "#" then
                Ok (append_lines st idx (info_added st) [line])
              else
                out <- merge_record d idx line ;;
                Ok (append_lines st idx (info_added st) [out])) = Ok st' ->
             info_idx st' = idx).
  { intros idx E.
    destruct (startswith line "##INFO");
      [destruct (negb (info_added st)); injection E as <-; reflexivity |].
    destruct (startswith line "##" || startswith line "#");
      [injection E as <-; reflexivity |].
    destruct (merge_record d idx line); cbn [bind] in E; [| discriminate].
    injection E as <-. reflexivity. }
  destruct (startswith line "#C").
  - destruct (list_index (split_ws (strip line)) "INFO") as [i |]; cbn [bind] in H;
      [| discriminate].
    exists i. split; [reflexivity | now apply G].
  - cbn [bind] in H. now apply G.
Qed.

(** [info_idx] after a run of lines is what the last [#C] line of the run
    gives, and is as before when the run has none. *)
Lemma merge_loop_info_idx (ls : list string) :
  forall st st' : merge_state,
    for_each (merge_line d) ls st = Ok st' ->
    match last_chrom_line ls with
    | Some hdr =>
        exists i, list_index (split_ws (strip hdr)) "INFO" = Ok i /\
                  info_idx st' = Some i
    | None => info_idx st' = info_idx st
    end.
Proof.
  unfold last_chrom_line.
  induction ls as [| l ls IH] using rev_ind; intros st st' H.
  - cbn in H. injection H as <-. reflexivity.
  - rewrite for_each_app in H.
    destruct (for_each (merge_line d) ls st) as [st1 |] eqn:E1; cbn [bind] in H;
      [| discriminate].
    cbn [for_each] in H.
    destruct (merge_line d st1 l) as [st2 |] eqn:E2; cbn [bind] in H; [| discriminate].
    injection H as <-.
    rewrite rev_app_distr. cbn [rev app find].
    pose proof (merge_line_info_idx _ _ _ E2) as Hl.
    destruct (startswith l "#C"); [exact Hl |].
    specialize (IH st st1 E1).
    destruct (find (fun l0 => startswith l0 "#C") (rev ls)) as [hdr |].
    + destruct IH as (i & Hi & Hidx). exists i. split; [assumption | congruence].
    + congruence.
Qed.

(** A data record adds one line: what [merge_record] gives with the
    [info_idx] of that moment. *)
Lemma merge_line_record (st st' : merge_state) (line : string) :
  startswith line "#" = false ->
  merge_line d st line = Ok st' ->
  exists out,
    merge_record d (info_idx st) line = Ok out /\
    updated_vcf_lines st' = updated_vcf_lines st ++ [out].
Proof.
  intros Hh. unfold merge_line.
  destruct (startswith line "#C") eqn:HC;
    [apply startswith_first in HC; congruence |].
  destruct (startswith line "##INFO") eqn:HI;
    [apply startswith_first in HI; congruence |].
  destruct (startswith line "##") eqn:Hhh;
    [apply startswith_first in Hhh; congruence |].
  rewrite Hh. cbn [bind orb]. intros H.
  destruct (merge_record d (info_idx st) line) as [out |]; cbn [bind] in H;
    [| discriminate].
  injection H as <-. exists out. split; reflexivity.
Qed.

(** Lines once written stay written. *)
Lemma merge_loop_keeps (ls : list string) :
  forall st st' : merge_state,
    for_each (merge_line d) ls st = Ok st' ->
    exists more, updated_vcf_lines st' = updated_vcf_lines st ++ more.
Proof.
  induction ls as [| l ls IH]; intros st st' H.
  - cbn in H. injection H as <-. exists []. now rewrite app_nil_r.
  - cbn [for_each] in H.
    destruct (merge_line d st l) as [st1 |] eqn:E1; cbn [bind] in H; [| discriminate].
    destruct (IH _ _ H) as [more Hmore].
    assert (H1 : exists one, updated_vcf_lines st1 = updated_vcf_lines st ++ one).
    { clear - E1. unfold merge_line in E1.
      destruct (if startswith l "#C" then _ else _) as [idx |]; cbn [bind] in E1;
        [| discriminate].
      destruct (startswith l "##INFO");
        [destruct (negb (info_added st)); injection E1 as <-; eexists; reflexivity |].
      destruct (startswith l "##" || startswith l "#");
        [injection E1 as <-; eexists; reflexivity |].
      destruct (merge_record d idx l); cbn [bind] in E1; [| discriminate].
      injection E1 as <-. eexists; reflexivity. }
    destruct H1 as [one Hone]. exists (one ++ more).
    now rewrite Hmore, Hone, app_assoc.
Qed.

Lemma merge_annotates_from_header (pre post out : list string) (line : string)
    (vcf_id : vcf_key) (entry : det_entry) (st : merge_state) :
  for_each (merge_line d) (pre ++ line :: post) merge_init = Ok st ->
  startswith line "#" = false ->
  record_key (split_on tab (strip line)) = Ok vcf_id ->
  dict_get vcf_key_eqb d vcf_id = Some entry ->
  exists (hdr : string) (i : Z) (out_line : string),
    last_chrom_line pre = Some hdr /\
    list_index (split_ws (strip hdr)) "INFO" = Ok i /\
    annotate (split_on tab (strip line)) (Some i) entry = Ok out_line /\
    In out_line (updated_vcf_lines st).
Proof.
  intros H Hh Hkey Hget. rewrite for_each_app in H.
  destruct (for_each (merge_line d) pre merge_init) as [st1 |] eqn:E1; cbn [bind] in H;
    [| discriminate].
  cbn [for_each] in H.
  destruct (merge_line d st1 line) as [st2 |] eqn:E2; cbn [bind] in H; [| discriminate].
  destruct (merge_line_record _ _ _ Hh E2) as (out_line & Hrec & Hupd).
  destruct (merge_loop_keeps _ _ _ H) as [more Hmore].
  unfold merge_record in Hrec. cbv zeta in Hrec. rewrite Hkey in Hrec.
  cbn [bind] in Hrec. rewrite Hget in Hrec.
  pose proof (merge_loop_info_idx _ _ _ E1) as Hidx.
  destruct (last_chrom_line pre) as [hdr |].
  - destruct Hidx as (i & Hi & Hidx). rewrite Hidx in Hrec.
    exists hdr, i, out_line. repeat split; try assumption.
    rewrite Hmore, Hupd. apply in_or_app. left. apply in_or_app. right. now left.
  - cbn [merge_init info_idx] in Hidx. rewrite Hidx in Hrec.
    unfold annotate in Hrec. cbn [bind] in Hrec. discriminate.
Qed.

(** In a VCF without [##INFO] lines the output line of a data record
    stands where the record stood, and is what [merge_record] gives with
    the [info_idx] left by the lines before it. *)
Lemma merge_record_at (vcf_file : list string) (i : nat) (line : string)
    (st : merge_state) :
  Forall (fun x => startswith x "##INFO" = false) vcf_file ->
  for_each (merge_line d) vcf_file merge_init = Ok st ->
  nth_error vcf_file i = Some line ->
  startswith line "#" = false ->
  exists (st1 : merge_state) (out_line : string),
    for_each (merge_line d) (firstn i vcf_file) merge_init = Ok st1 /\
    merge_record d (info_idx st1) line = Ok out_line /\
    nth_error (updated_vcf_lines st) i = Some out_line.
Proof.
  intros Hno Hrun Hi Hh.
  destruct (nth_error_split _ _ Hi) as (l1 & l2 & -> & Hlen).
  assert (Hfirst : firstn i (l1 ++ line :: l2) = l1).
  { rewrite <- Hlen, firstn_app, firstn_all, Nat.sub_diag. cbn [firstn].
    apply app_nil_r. }
  rewrite Hfirst. rewrite for_each_app in Hrun.
  destruct (for_each (merge_line d) l1 merge_init) as [st1 |] eqn:E1;
    cbn [bind] in Hrun; [| discriminate].
  cbn [for_each] in Hrun.
  destruct (merge_line d st1 line) as [st2 |] eqn:E2; cbn [bind] in Hrun;
    [| discriminate].
  apply Forall_app in Hno as [Hno1 _].
  destruct (merge_loop_plain d l1 _ _ E1 (or_intror Hno1)) as (outs & Hupd1 & F & _).
  cbn [merge_init updated_vcf_lines app] in Hupd1.
  apply Forall2_length in F.
  destruct (merge_line_record _ _ _ Hh E2) as (out_line & Hrec & Hupd2).
  destruct (merge_loop_keeps _ _ _ Hrun) as [more Hmore].
  exists st1, out_line. split; [reflexivity |]. split; [assumption |].
  rewrite Hmore, Hupd2, Hupd1, <- app_assoc, nth_error_app.
  replace (i <? length outs)%nat with false
    by (symmetry; apply Nat.ltb_ge; lia).
  replace (i - length outs)%nat with 0%nat by lia. reflexivity.
Qed.

End MergeColumn.

(** C10. When no line of the VCF starts with [##INFO] and the merge pass
    completes, neither of the two new header lines is in the output,
    which has one line for each input line; and a data record whose
    identity tuple is in the table is still written, in its place, with
    [;DET=...;DETS=...] added to its INFO column: the column whose
    position is that of the word [INFO] in the nearest [#C] line before
    the record ([header.index("INFO")], lines 27-29). *)
Theorem merge_without_info_lines (tsv_df : list table_row)
    (vcf_file out : list string) :
  Forall (fun x => startswith x "##INFO" = false) vcf_file ->
  merge_detectability_into_vcf tsv_df vcf_file = Ok out ->
  ~ In DET_header out /\
  ~ In DETS_header out /\
  length out = length vcf_file /\
  forall (i : nat) (line : string) (vcf_id : vcf_key) (entry : det_entry),
    nth_error vcf_file i = Some line ->
    startswith line "#" = false ->
    record_key (split_on tab (strip line)) = Ok vcf_id ->
    dict_get vcf_key_eqb (detectability_data_dict tsv_df) vcf_id = Some entry ->
    exists (hdr : string) (info_idx : Z) (old : string) (columns' : list string),
      last_chrom_line (firstn i vcf_file) = Some hdr /\
      list_index (split_ws (strip hdr)) "INFO" = Ok info_idx /\
      py_index (split_on tab (strip line)) info_idx = Ok old /\
      py_setitem (split_on tab (strip line)) info_idx
        (old ++ ";DET=" ++ condition entry ++ ";DETS=" ++ score entry)%string
      = Ok columns' /\
      nth_error out i = Some (join (String tab EmptyString) columns' ++ nl)%string.
Proof.
  intros Hno H. unfold merge_detectability_into_vcf in H.
  set (d := detectability_data_dict tsv_df) in *.
  destruct (for_each (merge_line d) vcf_file merge_init) as [st |] eqn:Hrun;
    cbn in H; [| discriminate].
  injection H as <-.
  destruct (merge_loop_plain d vcf_file _ _ Hrun (or_intror Hno))
    as (outs & Hout & F & _).
  cbn [merge_init updated_vcf_lines app] in Hout.
  assert (Hnew : Forall (fun o => o <> DET_header /\ o <> DETS_header) outs).
  { clear - Hno F. induction F as [| l o ls os Hp _ IH]; constructor.
    - inversion Hno; subst. eapply passed_through_not_new_header; eassumption.
    - inversion Hno; subst. auto. }
  rewrite Forall_forall in Hnew.
  split; [| split; [| split]].
  - rewrite Hout. intros Hin. apply Hnew in Hin. now destruct Hin.
  - rewrite Hout. intros Hin. apply Hnew in Hin. now destruct Hin.
  - rewrite Hout. symmetry. eapply Forall2_length; eassumption.
  - intros i line vcf_id entry Hi Hh Hk Hd.
    destruct (merge_record_at d vcf_file i line st Hno Hrun Hi Hh)
      as (st1 & out_line & E1 & Hr & Hnth).
    pose proof (merge_loop_info_idx d _ _ _ E1) as Hidx.
    unfold merge_record in Hr. cbv zeta in Hr. rewrite Hk in Hr.
    cbn [bind] in Hr. rewrite Hd in Hr. unfold annotate in Hr.
    destruct (last_chrom_line (firstn i vcf_file)) as [hdr |].
    + destruct Hidx as (info_idx & Hfound & Hst1). rewrite Hst1 in Hr.
      cbn [bind] in Hr.
      destruct (py_index (split_on tab (strip line)) info_idx) as [old |] eqn:Hold;
        cbn [bind] in Hr; [| discriminate].
      destruct (py_setitem (split_on tab (strip line)) info_idx _)
        as [columns' |] eqn:Hs; cbn [bind] in Hr; [| discriminate].
      injection Hr as <-.
      exists hdr, info_idx, old, columns'. repeat split; assumption.
    + cbn [merge_init info_idx] in Hidx. rewrite Hidx in Hr.
      cbn [bind] in Hr. discriminate.
Qed.

Lemma merge_without_info_lines_witness :
  ~ In DET_header
      [line_fileformat; line_chrom;
       tsv_line ["chr1"; "100"; "."; "A"; "T"; "."; "."; "DP=10;DET=Yes;DETS=2.756"];
       line_record_200] /\
  ~ In DETS_header
      [line_fileformat; line_chrom;
       tsv_line ["chr1"; "100"; "."; "A"; "T"; "."; "."; "DP=10;DET=Yes;DETS=2.756"];
       line_record_200] /\
  length
    [line_fileformat; line_chrom;
     tsv_line ["chr1"; "100"; "."; "A"; "T"; "."; "."; "DP=10;DET=Yes;DETS=2.756"];
     line_record_200]
  = length [line_fileformat; line_chrom; line_record_100; line_record_200] /\
  forall (i : nat) (line : string) (vcf_id : vcf_key) (entry : det_entry),
    nth_error [line_fileformat; line_chrom; line_record_100; line_record_200] i
    = Some line ->
    startswith line "#" = false ->
    record_key (split_on tab (strip line)) = Ok vcf_id ->
    dict_get vcf_key_eqb (detectability_data_dict sample_table) vcf_id = Some entry ->
    exists (hdr : string) (info_idx : Z) (old : string) (columns' : list string),
      last_chrom_line
        (firstn i [line_fileformat; line_chrom; line_record_100; line_record_200])
      = Some hdr /\
      list_index (split_ws (strip hdr)) "INFO" = Ok info_idx /\
      py_index (split_on tab (strip line)) info_idx = Ok old /\
      py_setitem (split_on tab (strip line)) info_idx
        (old ++ ";DET=" ++ condition entry ++ ";DETS=" ++ score entry)%string
      = Ok columns' /\
      nth_error
        [line_fileformat; line_chrom;
         tsv_line ["chr1"; "100"; "."; "A"; "T"; "."; "."; "DP=10;DET=Yes;DETS=2.756"];
         line_record_200] i
      = Some (join (String tab EmptyString) columns' ++ nl)%string.
Proof.
  apply (merge_without_info_lines sample_table
           [line_fileformat; line_chrom; line_record_100; line_record_200]).
  - repeat constructor.
  - reflexivity.
Defined.

(** X22. A record whose identity tuple is in the table is annotated in the
    column that the nearest [#C] line before it names: when the merge
    pass completes, there is such a line, the position [i] of the word
    [INFO] among its whitespace-separated words is found, and the record
    is written with column [i] of its tab-separated columns extended. *)
Theorem merge_annotates_header_column (tsv_df : list table_row)
    (pre post out : list string) (line : string) (vcf_id : vcf_key)
    (entry : det_entry) :
  merge_detectability_into_vcf tsv_df (pre ++ line :: post) = Ok out ->
  startswith line "#" = false ->
  record_key (split_on tab (strip line)) = Ok vcf_id ->
  dict_get vcf_key_eqb (detectability_data_dict tsv_df) vcf_id = Some entry ->
  exists (hdr : string) (i : Z) (out_line : string),
    last_chrom_line pre = Some hdr /\
    list_index (split_ws (strip hdr)) "INFO" = Ok i /\
    annotate (split_on tab (strip line)) (Some i) entry = Ok out_line /\
    In out_line out.
Proof.
  unfold merge_detectability_into_vcf. intros H Hh Hkey Hget.
  destruct (for_each _ (pre ++ line :: post) merge_init) as [st |] eqn:E;
    cbn [bind] in H; [| discriminate].
  injection H as <-.
  eapply merge_annotates_from_header; eassumption.
Qed.

Lemma merge_annotates_header_column_witness :
  exists (hdr : string) (i : Z) (out_line : string),
    last_chrom_line [line_fileformat; line_info_dp; line_chrom] = Some hdr /\
    list_index (split_ws (strip hdr)) "INFO" = Ok i /\
    annotate (split_on tab (strip line_record_100)) (Some i)
      {| condition := "Yes"; score := "2.756" |} = Ok out_line /\
    In out_line
      [line_fileformat; line_info_dp; DET_header; DETS_header; line_chrom;
       tsv_line ["chr1"; "100"; "."; "A"; "T"; "."; "."; "DP=10;DET=Yes;DETS=2.756"];
       line_record_200].
Proof.
  apply (merge_annotates_header_column sample_table
           [line_fileformat; line_info_dp; line_chrom] [line_record_200]
           _ line_record_100 (CStr "chr1", CInt 100, CStr "A", CStr "T"));
    reflexivity.
Defined.
